(** * MagicHome LED controllers: protocol codec, controller session, discovery

    A shallow embedding of [src/magichome.py].  Python integers are [Z],
    [bytes]/[bytearray] values are lists of [Byte.byte], Python floats are
    Rocq's primitive binary64 floats, exceptions are an error result, and
    the sockets and the logger are an explicit world threaded through a
    small state-and-exception monad. *)

From Stdlib Require Import ZArith List Bool Lia Permutation.
From Stdlib Require Import Strings.Byte.
From Stdlib Require Strings.String Strings.Ascii.
Import String.StringSyntax.
Delimit Scope string_scope with string.
From Stdlib Require Import Floats.PrimFloat Floats.FloatOps Floats.SpecFloat.
From Stdlib Require Floats.FloatAxioms.
Import ListNotations.
Local Open Scope Z_scope.

(** ** The fragment of the Python runtime the program relies on *)
Module Py.

(** The exceptions that the modelled code raises or lets escape. *)
Inductive exn : Type :=
| IndexError
| TypeError
| ValueError
| ZeroDivisionError
| OverflowError
| MagicHomeDeviceNotFound.

Inductive result (A : Type) : Type :=
| Ok (a : A)
| Raise (e : exn).
Arguments Ok {A} a.
Arguments Raise {A} e.

Definition rbind {A B} (x : result A) (k : A -> result B) : result B :=
  match x with
  | Ok a => k a
  | Raise e => Raise e
  end.

Definition exn_eqb (e1 e2 : exn) : bool :=
  match e1, e2 with
  | IndexError, IndexError | TypeError, TypeError | ValueError, ValueError
  | ZeroDivisionError, ZeroDivisionError | OverflowError, OverflowError
  | MagicHomeDeviceNotFound, MagicHomeDeviceNotFound => true
  | _, _ => false
  end.

Definition bytes : Type := list byte.

Definition int_of_byte (c : byte) : Z := Z.of_N (Byte.to_N c).

(** [bytes([i])]: one byte, [ValueError] unless [i] is in [range(256)]. *)
Definition bytes_of_int (i : Z) : result bytes :=
  if (i <? 0) || (255 <? i) then Raise ValueError
  else match Byte.of_N (Z.to_N i) with
       | Some c => Ok [c]
       | None => Raise ValueError
       end.

(** [sum(stream)] over a byte sequence. *)
Definition sum (stream : bytes) : Z :=
  fold_left (fun acc c => acc + int_of_byte c) stream 0.

Definition bytes_eqb (x y : bytes) : bool :=
  if list_eq_dec Byte.byte_eq_dec x y then true else false.

(** [response[i]] where [response] is a [bytes] object or [None]:
    subscripting [None] is a [TypeError], an index past the end an
    [IndexError]. *)
Definition getitem (response : option bytes) (i : nat) : result Z :=
  match response with
  | None => Raise TypeError
  | Some data =>
      match nth_error data i with
      | Some c => Ok (int_of_byte c)
      | None => Raise IndexError
      end
  end.

(** [data.split(sep)] for a one-byte separator: the fields between the
    separators, empty fields kept; never the empty list. *)
Fixpoint split (sep : byte) (data : bytes) : list bytes :=
  match data with
  | [] => [[]]
  | c :: rest =>
      if Byte.eqb c sep then [] :: split sep rest
      else match split sep rest with
           | field :: fields => (c :: field) :: fields
           | [] => [[c]]
           end
  end.

End Py.
Import Py.

Declare Scope py_scope.
Delimit Scope py_scope with py.
Notation "x <~ m ;; k" := (rbind m (fun x => k))
  (at level 61, m at next level, right associativity) : py_scope.
Local Open Scope py_scope.

(** ** Sockets and logger: the world the program runs in *)
Module Net.

(** What a blocking receive with a timeout gives. *)
Inductive recv_result : Type :=
| Data (data : bytes)
| Timeout.

Inductive log_record : Type :=
| DebugResponse (response : bytes)
| DebugNoResponse
| DebugHex (response : bytes)
| DebugState (is_on : option bool) (color : Z * Z * Z * Z)
| DebugBroadcasted
| DebugSentTo (addr : bytes)
| DebugReceived (data : bytes)
| DebugException (e : exn)
| WarningInvalidBroadcastAnswer (data : bytes)
| WarningInvalidAnswer (data : bytes).

(** [tcp_sent]: the payloads written so far, one connection each, with
    the address connected to.  [tcp_inbox]: what the successive
    [recv(1024)] calls will find ([Timeout], or nothing left, is the
    device staying silent for the whole wait).  [udp_sent]: the probes
    sent from the discovery socket, with their destination.  [debug] is
    [logger.isEnabledFor(DEBUG)]; [next_oid] the identity given to the
    next object created.  Connection and send failures of the operating
    system are outside the model. *)
Record World : Type := mkWorld {
  debug : bool;
  tcp_sent : list (bytes * bytes);
  tcp_inbox : list recv_result;
  udp_sent : list (option bytes * bytes);
  log : list log_record;
  next_oid : nat
}.

(** State threaded through every call; an exception keeps the state
    reached when it was raised. *)
Definition M (A : Type) : Type := World -> result A * World.

Definition ret {A} (a : A) : M A := fun w => (Ok a, w).
Definition raise {A} (e : exn) : M A := fun w => (Raise e, w).
Definition bind {A B} (m : M A) (k : A -> M B) : M B :=
  fun w => match m w with
           | (Ok a, w') => k a w'
           | (Raise e, w') => (Raise e, w')
           end.
Definition lift {A} (x : result A) : M A := fun w => (x, w).
(** [try: body except Exception as e: handler e] *)
Definition try_except {A} (body : M A) (handler : exn -> M A) : M A :=
  fun w => match body w with
           | (Ok a, w') => (Ok a, w')
           | (Raise e, w') => handler e w'
           end.

Definition logger_debug (rec : log_record) : M unit :=
  fun w => (Ok tt,
            if debug w
            then mkWorld (debug w) (tcp_sent w) (tcp_inbox w) (udp_sent w)
                   (log w ++ [rec]) (next_oid w)
            else w).

Definition logger_warning (rec : log_record) : M unit :=
  fun w => (Ok tt,
            mkWorld (debug w) (tcp_sent w) (tcp_inbox w) (udp_sent w)
              (log w ++ [rec]) (next_oid w)).

(** [s.connect((addr, port)); s.send(data)] on a fresh TCP socket. *)
Definition tcp_send (addr data : bytes) : M unit :=
  fun w => (Ok tt,
            mkWorld (debug w) (tcp_sent w ++ [(addr, data)]) (tcp_inbox w)
              (udp_sent w) (log w) (next_oid w)).

(** [s.recv(n)] under the socket timeout. *)
Definition tcp_recv (n : nat) : M recv_result :=
  fun w => match tcp_inbox w with
           | [] => (Ok Timeout, w)
           | x :: rest =>
               (Ok match x with
                   | Data data => Data (firstn n data)
                   | Timeout => Timeout
                   end,
                mkWorld (debug w) (tcp_sent w) rest (udp_sent w)
                  (log w) (next_oid w))
           end.

(** [s.sendto(data, (dest, port))]; [None] is ["<broadcast>"]. *)
Definition udp_sendto (dest : option bytes) (data : bytes) : M unit :=
  fun w => (Ok tt,
            mkWorld (debug w) (tcp_sent w) (tcp_inbox w)
              (udp_sent w ++ [(dest, data)]) (log w) (next_oid w)).

(** Object creation: every new object has an identity of its own. *)
Definition new_oid : M nat :=
  fun w => (Ok (next_oid w),
            mkWorld (debug w) (tcp_sent w) (tcp_inbox w) (udp_sent w)
              (log w) (S (next_oid w))).

End Net.
Import Net.

Notation "x <- m ;; k" := (bind m (fun x => k))
  (at level 61, m at next level, right associativity) : py_scope.
Notation "m ;; k" := (bind m (fun _ => k))
  (at level 61, right associativity) : py_scope.
Local Open Scope py_scope.

(** ** Python floats (IEEE binary64) and the conversions to and from [int] *)
Module PyFloat.
Local Open Scope float_scope.

(** [float(z)]: the nearest float, ties to even; [OverflowError] when the
    integer is too large. *)
Definition of_int (z : Z) : result float :=
  let x := SF2Prim (binary_normalize prec emax z 0 false) in
  if is_infinity x then Raise OverflowError else Ok x.

(** [x / y] on floats. *)
Definition truediv (x y : float) : result float :=
  if y =? 0 then Raise ZeroDivisionError else Ok (x / y).

(** [a / b] on integers.  Python rounds the exact quotient once; the
    quotient of the two conversions is that same float whenever both
    operands are below 2^53 in magnitude, which is the range this model
    of integer division is meant for. *)
Definition int_truediv (a b : Z) : result float :=
  if (b =? 0)%Z then Raise ZeroDivisionError
  else x <~ of_int a ;; y <~ of_int b ;; Ok (x / y).

(** The integer part of a finite float, towards zero. *)
Definition trunc_finite (s : bool) (m : positive) (e : Z) : Z :=
  let a := if (0 <=? e)%Z then Z.shiftl (Zpos m) e else Z.shiftr (Zpos m) (- e) in
  if s then (- a)%Z else a.

(** [int(x)]. *)
Definition to_int (x : float) : result Z :=
  match Prim2SF x with
  | S754_nan => Raise ValueError
  | S754_infinity _ => Raise OverflowError
  | S754_zero _ => Ok 0%Z
  | S754_finite s m e => Ok (trunc_finite s m e)
  end.

(** [x % 1.0]: C's [fmod(x, 1.0)], which is exact, moved to the sign of
    the divisor; a zero remainder is [+0.0]. *)
Definition mod1 (x : float) : float :=
  match Prim2SF x with
  | S754_nan | S754_infinity _ => nan
  | S754_zero _ => 0
  | S754_finite s m e =>
      let t := SF2Prim (binary_normalize prec emax (trunc_finite s m e) 0 false) in
      let md := x - t in
      if md =? 0 then 0
      else if md <? 0 then md + 1
      else md
  end.

End PyFloat.

(** ** The two functions of Python's standard module [colorsys] that
    [change_brightness] calls, after CPython's [Lib/colorsys.py].
    [rgb_to_hls] is given the integer channels, as the caller does.  The
    divisor of the saturation is written [2.0-maxc-minc] in some releases
    and [2.0-sumc] in others; on integers below 2^52 both are the same
    float.  The model is meant for channels of that size: beyond it the
    integer divisions of the source round differently. *)
Module colorsys.
Import PyFloat.
Local Open Scope float_scope.

Definition ONE_THIRD : float := 1 / 3.
Definition ONE_SIXTH : float := 1 / 6.
Definition TWO_THIRD : float := 2 / 3.

Definition rgb_to_hls (r g b : Z) : result (float * float * float) :=
  let maxc := Z.max (Z.max r g) b in
  let minc := Z.min (Z.min r g) b in
  let sumc := (maxc + minc)%Z in
  let rangec := (maxc - minc)%Z in
  fsumc <~ of_int sumc ;;
  l <~ truediv fsumc 2 ;;
  if (minc =? maxc)%Z then Ok (0, l, 0)
  else
    s <~ (if l <=? 0.5 then int_truediv rangec sumc
          else
            fmaxc <~ of_int maxc ;;
            fminc <~ of_int minc ;;
            frangec <~ of_int rangec ;;
            truediv frangec (2 - fmaxc - fminc)) ;;
    rc <~ int_truediv (maxc - r) rangec ;;
    gc <~ int_truediv (maxc - g) rangec ;;
    bc <~ int_truediv (maxc - b) rangec ;;
    let h :=
      if (r =? maxc)%Z then bc - gc
      else if (g =? maxc)%Z then 2 + rc - bc
      else 4 + gc - rc in
    h6 <~ truediv h 6 ;;
    Ok (mod1 h6, l, s).

Definition _v (m1 m2 hue : float) : float :=
  let hue := mod1 hue in
  if hue <? ONE_SIXTH then m1 + (m2 - m1) * hue * 6
  else if hue <? 0.5 then m2
  else if hue <? TWO_THIRD then m1 + (m2 - m1) * (TWO_THIRD - hue) * 6
  else m1.

Definition hls_to_rgb (h l s : float) : float * float * float :=
  if s =? 0 then (l, l, l)
  else
    let m2 := if l <=? 0.5 then l * (1 + s) else l + s - (l * s) in
    let m1 := 2 * l - m2 in
    (_v m1 m2 (h + ONE_THIRD), _v m1 m2 h, _v m1 m2 (h - ONE_THIRD)).

End colorsys.

(** ** class MagicHomeControllerColorState *)
Module MagicHomeControllerColorState.
Import PyFloat.

Record t : Type := mk { r : Z; g : Z; b : Z; w : Z }.

(** The [stream] property: [bytearray([r, g, b, w])]. *)
Definition stream (self : t) : result bytes :=
  br <~ bytes_of_int (r self) ;;
  bg <~ bytes_of_int (g self) ;;
  bb <~ bytes_of_int (b self) ;;
  bw <~ bytes_of_int (w self) ;;
  Ok (br ++ bg ++ bb ++ bw).

(** The [int] property. *)
Definition int (self : t) : Z * Z * Z * Z := (r self, g self, b self, w self).

(** The luminance [change_brightness] hands to [hls_to_rgb]: changed by
    [delta], then kept between 0 and 255. *)
Definition adjust_luminance (l delta : float) (percentage : bool) : float :=
  let l := if percentage then (l * delta)%float else (l + delta)%float in
  if (l <? 0)%float then 0%float
  else if (255 <? l)%float then 255%float
  else l.

(** [change_brightness] updates the object in place and returns it.  The
    result is the object after the call, with the exception that ended
    the call if there was one: the three attributes are assigned one
    after the other, so an exception may leave some of them assigned.
    [delta] is a float or [None]. *)
Definition change_brightness (self : t) (delta : option float) (percentage : bool)
  : t * option exn :=
  match delta with
  | None => (self, None)
  | Some delta =>
      if (delta =? 0)%float then (self, None)
      else
        match colorsys.rgb_to_hls (r self) (g self) (b self) with
        | Raise e => (self, Some e)
        | Ok (h, l, s) =>
            let l := adjust_luminance l delta percentage in
            let '(fr, fg, fb) := colorsys.hls_to_rgb h l s in
            match to_int fr with
            | Raise e => (self, Some e)
            | Ok ir =>
                let self := mk ir (g self) (b self) (w self) in
                match to_int fg with
                | Raise e => (self, Some e)
                | Ok ig =>
                    let self := mk (r self) ig (b self) (w self) in
                    match to_int fb with
                    | Raise e => (self, Some e)
                    | Ok ib => (mk (r self) (g self) ib (w self), None)
                    end
                end
            end
        end
  end.

(** The [tuple] property: the four channels, each as a [bytes] object of
    length one. *)
Definition tuple (self : t) : result (bytes * bytes * bytes * bytes) :=
  br <~ bytes_of_int (r self) ;;
  bg <~ bytes_of_int (g self) ;;
  bb <~ bytes_of_int (b self) ;;
  bw <~ bytes_of_int (w self) ;;
  Ok (br, bg, bb, bw).

End MagicHomeControllerColorState.

(** ** class MagicHomeControllerState *)
Module MagicHomeControllerState.
Record t : Type := mk {
  is_on : option bool;
  color : MagicHomeControllerColorState.t
}.
End MagicHomeControllerState.

(** ** Python text and [io.StringIO] *)
Module PyStr.

(** Text, character by character.  All the text built below is ASCII. *)
Definition str : Type := list Ascii.ascii.

Definition text (s : String.string) : str := String.list_ascii_of_string s.
Arguments text s%_string.

Definition hex_digit (n : N) : Ascii.ascii :=
  nth (N.to_nat n) (text "0123456789abcdef") Ascii.zero.

(** ['{:02x}'.format(x)] for a byte [x]: two lower-case hexadecimal
    digits. *)
Definition format_02x (x : byte) : str :=
  [hex_digit (Byte.to_N x / 16); hex_digit (Byte.to_N x mod 16)].

End PyStr.

Module StringIO.
Import PyStr.

(** A text buffer and the position of the next write. *)
Record t : Type := mk { buffer : str; pos : nat }.

(** [io.StringIO(initial_value)]: the buffer holds the initial value and
    the position is at its start. *)
Definition new (initial_value : str) : t := mk initial_value 0.

(** [write(s)]: [s] replaces what the buffer holds from the position on,
    the buffer growing when [s] goes past its end; the position moves
    behind [s].  (The position never passes the end of the buffer here,
    as nothing seeks.) *)
Definition write (self : t) (s : str) : t :=
  mk (firstn (pos self) (buffer self) ++ s
        ++ skipn (pos self + length s) (buffer self))
     (pos self + length s).

Definition getvalue (self : t) : str := buffer self.

End StringIO.

(** ** class MagicHomeController *)
Module MagicHomeController.

(** An instance: its identity and the three attributes [__init__] sets. *)
Record t : Type := mk {
  oid : nat;
  _addr : bytes;
  _id : option bytes;
  _model : option bytes
}.

(** the call with the split fields as positional arguments: [addr] is required, [id] and [model]
    default to [None]; any other number of positional arguments is a
    [TypeError]. *)
Definition new (args : list bytes) : M t :=
  match args with
  | [addr] => o <- new_oid ;; ret (mk o addr None None)
  | [addr; id] => o <- new_oid ;; ret (mk o addr (Some id) None)
  | [addr; id; model] => o <- new_oid ;; ret (mk o addr (Some id) (Some model))
  | _ => raise TypeError
  end.

(** [__hash__]: the hash of the address (modelled by the address itself:
    equal addresses, equal hashes). *)
Definition __hash__ (self : t) : bytes := _addr self.

(** No [__eq__] is defined, so [==] is the one inherited from [object]:
    identity. *)
Definition __eq__ (self other : t) : bool := Nat.eqb (oid self) (oid other).

Definition __stream_checksum (stream : bytes) : result bytes :=
  bytes_of_int (Z.land (Py.sum stream) 255).

(** [_send]: connect, write, read the response when one is asked for,
    close.  The source lets the errors of [connect] and [send], and of
    [recv] other than the timeout, propagate; they are outside the model,
    in which connecting and writing go through. *)
Definition _send (self : t) (data : bytes) (get_response : bool)
  : M (option bytes) :=
  tcp_send (_addr self) data ;;
  if negb get_response then ret None
  else
    x <- tcp_recv 1024 ;;
    match x with
    | Data response => logger_debug (DebugResponse response) ;; ret (Some response)
    | Timeout => logger_debug DebugNoResponse ;; ret None
    end.

Definition turn_on (self : t) : M unit :=
  _send self [x71; x23; x94] false ;; ret tt.

Definition turn_off (self : t) : M unit :=
  _send self [x71; x24; x95] false ;; ret tt.

Definition __int2byte (i : Z) : result bytes :=
  if i <? 0 then Ok [x00]
  else if i >? 255 then Ok [xff]
  else bytes_of_int i.

(** The command [color] builds before sending it. *)
Definition color_command (r g b w : Z) : result bytes :=
  match __int2byte r, __int2byte g, __int2byte b, __int2byte w with
  | Ok br, Ok bg, Ok bb, Ok bw =>
      let command := [x31] ++ br ++ bg ++ bb ++ bw ++ [x0f] in
      match __stream_checksum command with
      | Ok ck => Ok (command ++ ck)
      | Raise e => Raise e
      end
  | Raise e, _, _, _ | _, Raise e, _, _ | _, _, Raise e, _ | _, _, _, Raise e =>
      Raise e
  end.

Definition color (self : t) (r g b w : Z) : M unit :=
  command <- lift (color_command r g b w) ;;
  _send self command false ;; ret tt.

(** The [state] property. *)
Definition state (self : t) : M MagicHomeControllerState.t :=
  response <- _send self [x81; x8a; x8b; x96] true ;;
  (fun w0 => (if debug w0
              then match response with
                   | Some data => logger_debug (DebugHex data)
                   | None => raise TypeError
                   end
              else ret tt) w0) ;;
  status <- lift (getitem response 2) ;;
  let is_on :=
    if status =? 35 then Some true
    else if status =? 35 then Some false
    else None in
  r <- lift (getitem response 6) ;;
  g <- lift (getitem response 7) ;;
  b <- lift (getitem response 8) ;;
  w <- lift (getitem response 9) ;;
  let res := MagicHomeControllerState.mk is_on
               (MagicHomeControllerColorState.mk r g b w) in
  logger_debug (DebugState is_on (r, g, b, w)) ;;
  ret res.

Definition is_on (self : t) : M (option bool) :=
  s <- state self ;; ret (MagicHomeControllerState.is_on s).

Definition power_toggle (self : t) : M unit :=
  s <- state self ;;
  match MagicHomeControllerState.is_on s with
  | Some true => turn_off self
  | _ => turn_on self
  end.

(** The setter of the [state] property; [not s.is_on] holds for [False]
    and for [None]. *)
Definition state_setter (self : t) (s : MagicHomeControllerState.t) : M unit :=
  match MagicHomeControllerState.is_on s with
  | Some true =>
      let '(r, g, b, w) :=
        MagicHomeControllerColorState.int (MagicHomeControllerState.color s) in
      color self r g b w
  | _ => turn_off self
  end.

(** [__str2hex]: every byte as a backslash, an x and two hexadecimal
    digits; iterating over [None] is a [TypeError]. *)
Definition __str2hex (data : option bytes) : result PyStr.str :=
  match data with
  | None => Raise TypeError
  | Some data => Ok (flat_map (fun x => PyStr.text "\x" ++ PyStr.format_02x x) data)
  end.

(** [__repr__].  [format_value] is what an f-string makes of an attribute
    value (for a [bytes] object, its [repr]). *)
Definition __repr__ (format_value : bytes -> PyStr.str) (self : t) : PyStr.str :=
  let res := StringIO.new (PyStr.text "Controller") in
  let res :=
    match _id self with
    | Some id => StringIO.write res (PyStr.text ":" ++ format_value id)
    | None => res
    end in
  let res :=
    match _model self with
    | Some model =>
        StringIO.write res (PyStr.text "(" ++ format_value model ++ PyStr.text ")")
    | None => res
    end in
  let res :=
    StringIO.write res (PyStr.text "@[" ++ format_value (_addr self) ++ PyStr.text "]") in
  StringIO.getvalue res.

(** What reading one of the properties [addr], [id], [model] can raise:
    [None] has no [decode], and [decode] rejects bytes that are not
    UTF-8. *)
Inductive accessor_exn : Type :=
| AttributeError
| UnicodeDecodeError.

(** [value.decode('utf-8')] on an attribute value; [utf8] is the decoder,
    giving [None] where the bytes are not valid UTF-8. *)
Definition decode_attribute (utf8 : bytes -> option PyStr.str) (value : option bytes)
  : accessor_exn + PyStr.str :=
  match value with
  | None => inl AttributeError
  | Some data =>
      match utf8 data with
      | Some s => inr s
      | None => inl UnicodeDecodeError
      end
  end.

(** The properties [addr], [id] and [model]. *)
Definition addr (utf8 : bytes -> option PyStr.str) (self : t) : accessor_exn + PyStr.str :=
  decode_attribute utf8 (Some (_addr self)).

Definition id (utf8 : bytes -> option PyStr.str) (self : t) : accessor_exn + PyStr.str :=
  decode_attribute utf8 (_id self).

Definition model (utf8 : bytes -> option PyStr.str) (self : t) : accessor_exn + PyStr.str :=
  decode_attribute utf8 (_model self).

End MagicHomeController.


(** ** class MagicHome: discovery *)
Module MagicHome.
Import MagicHomeController.

Definition __broadcast_message : bytes := String.list_byte_of_string "HF-A11ASSISTHREAD".

(** [found.add(c)] on a Python [set]: [c] is already there when an element
    has the hash of [c] and is equal to [c].  The elements are kept in the
    order they were added; the order in which Python iterates over a set
    is not specified, and nothing below depends on it. *)
Definition set_add (found : list t) (c : t) : list t :=
  if existsb (fun x => bytes_eqb (__hash__ x) (__hash__ c) && __eq__ x c) found
  then found
  else found ++ [c].

(** The receive loop of [discover].  [arriving] are the datagrams that
    [recvfrom(1024)] returns one after the other; when none is left the
    call times out and the loop ends. *)
Fixpoint discover_loop (arriving : list bytes) (found : list t) : M (list t) :=
  match arriving with
  | [] => ret found
  | datagram :: later =>
      let data := firstn 1024 datagram in
      logger_debug (DebugReceived data) ;;
      if bytes_eqb data __broadcast_message then discover_loop later found
      else
        found' <- try_except
                    (c <- new (split x2c data) ;; ret (set_add found c))
                    (fun e =>
                       logger_warning (WarningInvalidBroadcastAnswer data) ;;
                       logger_debug (DebugException e) ;;
                       ret found) ;;
        discover_loop later found'
  end.

(** [discover]: the controllers the generator yields, all of them.  The
    socket set-up ([setsockopt] with its fallback and re-raise, [bind])
    and the errors of [sendto] and [recvfrom] other than the timeout are
    outside the model: where the source lets such an error propagate, the
    model goes on. *)
Definition discover (arriving : list bytes) : M (list t) :=
  udp_sendto None __broadcast_message ;;
  logger_debug DebugBroadcasted ;;
  discover_loop arriving [].

(** [connect(addr)]: only the first datagram is read.  Socket set-up and
    send errors are outside the model, as for [discover]. *)
Definition connect (addr : bytes) (arriving : list bytes) : M t :=
  udp_sendto (Some addr) __broadcast_message ;;
  logger_debug (DebugSentTo addr) ;;
  match arriving with
  | [] => raise MagicHomeDeviceNotFound
  | datagram :: _ =>
      let data := firstn 1024 datagram in
      logger_debug (DebugReceived data) ;;
      try_except
        (new (split x2c data))
        (fun e =>
           logger_warning (WarningInvalidAnswer data) ;;
           logger_debug (DebugException e) ;;
           raise MagicHomeDeviceNotFound)
  end.

End MagicHome.

(** ** Vocabulary of the specification *)

(** The clamp of the specification: below 0 gives 0, above 255 gives 255. *)
Definition clamp (i : Z) : Z := if i <? 0 then 0 else if 255 <? i then 255 else i.

(** The fixed commands of the wire protocol. *)
Definition encodeTurnOn : bytes := [x71; x23; x94].
Definition encodeTurnOff : bytes := [x71; x24; x95].
Definition encodeQueryState : bytes := [x81; x8a; x8b; x96].

(** The payloads sent to the controllers, oldest first. *)
Definition payloads (world : World) : list bytes := map snd (tcp_sent world).

(** A world in which nothing has happened yet and the device answers the
    next query with [answers]. *)
Definition fresh_world (answers : list recv_result) : World :=
  mkWorld false [] answers [] [] 0.

(** A controller to run the examples on. *)
Definition bulb : MagicHomeController.t :=
  MagicHomeController.mk 0 (String.list_byte_of_string "192.168.68.240") None None.

(** The identity of a controller: address, id, model. *)
Definition identity (c : MagicHomeController.t) : bytes * option bytes * option bytes :=
  (MagicHomeController._addr c, MagicHomeController._id c, MagicHomeController._model c).

(** What [recvfrom(1024)] hands over of a datagram, and its comma-separated
    fields. *)
Definition received (datagram : bytes) : bytes := firstn 1024 datagram.
Definition fields (datagram : bytes) : list bytes := split x2c (received datagram).

(** The well-formed discovery response of the specification: exactly three
    comma-separated fields. *)
Definition well_formed (datagram : bytes) : Prop := length (fields datagram) = 3%nat.

Definition is_probe (datagram : bytes) : bool :=
  bytes_eqb (received datagram) MagicHome.__broadcast_message.

(** The responses discovery turns into a controller, and those it skips
    with a warning. *)
Definition accepted (datagram : bytes) : bool :=
  negb (is_probe datagram) && (length (fields datagram) <=? 3)%nat.
Definition skipped (datagram : bytes) : bool :=
  negb (is_probe datagram) && (3 <? length (fields datagram))%nat.

(** Address, id and model read off the fields; id and model are absent
    when there is no second or third field. *)
Definition identity_of_fields (fs : list bytes) : bytes * option bytes * option bytes :=
  (hd [] fs, nth_error fs 1, nth_error fs 2).

Definition is_warning (rec : log_record) : bool :=
  match rec with
  | WarningInvalidBroadcastAnswer _ | WarningInvalidAnswer _ => true
  | _ => false
  end.

Definition warnings (world : World) : list log_record := filter is_warning (log world).

(** Byte strings written as text. *)
Definition ascii (s : String.string) : bytes := String.list_byte_of_string s.
Arguments ascii s%_string.

(** How far the luminance of a colour with channels in [0,255] is from
    both ends: adding 256 passes 255, adding -256 passes 0. *)
Definition luminance_within_reach (sumc : Z) : bool :=
  match PyFloat.of_int sumc with
  | Ok fsumc =>
      let l := (fsumc / 2)%float in
      negb (l + 256 <? 0)%float && (255 <? l + 256)%float && (l + -256 <? 0)%float
  | Raise _ => false
  end.

(** A payload that ends in the checksum of the bytes before it. *)
Definition checksummed (payload : bytes) : Prop :=
  exists body ck,
    payload = body ++ ck /\ MagicHomeController.__stream_checksum body = Ok ck.

(** The integers a byte can hold, and the colours made of them. *)
Definition in_byte_range (i : Z) : bool := (0 <=? i) && (i <=? 255).

Definition channels_in_byte_range (c : MagicHomeControllerColorState.t) : bool :=
  in_byte_range (MagicHomeControllerColorState.r c)
  && in_byte_range (MagicHomeControllerColorState.g c)
  && in_byte_range (MagicHomeControllerColorState.b c)
  && in_byte_range (MagicHomeControllerColorState.w c).

(** The number of commas in a byte string, and [b','.join(fields)]. *)
Definition commas (data : bytes) : nat := count_occ Byte.byte_eq_dec data x2c.

Fixpoint join (sep : byte) (fs : list bytes) : bytes :=
  match fs with
  | [] => []
  | [f] => f
  | f :: rest => f ++ sep :: join sep rest
  end.

(** The integers [lo], [lo + 1], ..., [lo + n - 1]. *)
Definition zrange (lo : Z) (n : nat) : list Z := map (fun k => lo + Z.of_nat k) (seq 0 n).

(** The attributes of a controller that are set, address first. *)
Definition attributes (c : MagicHomeController.t) : list bytes :=
  MagicHomeController._addr c
  :: match MagicHomeController._id c with Some id => [id] | None => [] end
  ++ match MagicHomeController._model c with Some model => [model] | None => [] end.

(** The 256 bytes, and the byte two hexadecimal digits stand for. *)
Definition all_bytes : list byte :=
  map (fun n => match Byte.of_N (N.of_nat n) with Some c => c | None => x00 end) (seq 0 256).

Definition byte_of_02x (digits : PyStr.str) : option byte :=
  find (fun c => if list_eq_dec Ascii.ascii_dec (PyStr.format_02x c) digits then true else false)
    all_bytes.

(** Checks that are run over every value channels can take, on tables
    that hold each integer with its conversion to a float.  The first two
    compare what [rgb_to_hls] tests in floating point on the largest and
    the smallest channel with the same tests on the integers. *)
Definition conversions (f : Z -> Z) (lo : Z) (n : nat) : list (Z * result float) :=
  map (fun z => (z, PyFloat.of_int (f z))) (zrange lo n).

Definition hls_half_check (entry : Z * result float) : bool :=
  match snd entry with
  | Ok fsumc => Bool.eqb (fsumc / 2 <=? 0.5)%float (fst entry <=? 1)
  | Raise _ => false
  end.

Definition hls_zero_check (p q : Z * result float) : bool :=
  match snd p, snd q with
  | Ok fmaxc, Ok fminc => Bool.eqb (2 - fmaxc - fminc =? 0)%float (fst p + fst q =? 2)
  | _, _ => false
  end.

Definition hls_zero_checks (table : list (Z * result float)) : bool :=
  forallb (fun p => forallb (hls_zero_check p) table) table.

(** The third is the adjustment of a grey of level [v] by [d], given the
    luminance [l] of the grey and the delta [fd] as floats: what
    [change_brightness] writes back is the level plus the delta, clamped. *)
Definition grey_check (v d : Z) (l fd : float) : bool :=
  if (fd =? 0)%float then v =? clamp (v + d)
  else
    match PyFloat.to_int (MagicHomeControllerColorState.adjust_luminance l fd false) with
    | Ok i => i =? clamp (v + d)
    | Raise _ => false
    end.

Definition grey_entry_check (level delta : Z * result float) : bool :=
  match snd level, snd delta with
  | Ok fsumc, Ok fd => grey_check (fst level) (fst delta) (fsumc / 2)%float fd
  | _, _ => false
  end.

Definition grey_checks (levels deltas : list (Z * result float)) : bool :=
  forallb (fun level => forallb (grey_entry_check level) deltas) levels.

(** * Properties *)

(** ** Protocol codec *)
Section Codec.
Import MagicHomeController.

Lemma bytes_of_int_ok (i : Z) :
  0 <= i <= 255 ->
  exists c, bytes_of_int i = Ok [c] /\ int_of_byte c = i.
Proof.
  intros Hi. unfold bytes_of_int.
  destruct (Z.ltb_spec i 0); [lia |].
  destruct (Z.ltb_spec 255 i); [lia |]. simpl.
  destruct (Byte.of_N (Z.to_N i)) as [c |] eqn:E.
  - exists c. split; [reflexivity |].
    unfold int_of_byte. apply Byte.to_of_N in E. rewrite E. lia.
  - exfalso. apply Byte.of_N_None_iff in E. lia.
Qed.

Lemma clamp_range (i : Z) : 0 <= clamp i <= 255.
Proof.
  unfold clamp. destruct (Z.ltb_spec i 0); [lia |].
  destruct (Z.ltb_spec 255 i); lia.
Qed.

Lemma clamp_id (i : Z) : 0 <= i <= 255 -> clamp i = i.
Proof.
  intros Hi. unfold clamp. destruct (Z.ltb_spec i 0); [lia |].
  destruct (Z.ltb_spec 255 i); lia.
Qed.

(** [__int2byte] never raises and clamps. *)
Lemma int2byte_clamp (i : Z) :
  exists c, __int2byte i = Ok [c] /\ int_of_byte c = clamp i.
Proof.
  unfold __int2byte, clamp.
  destruct (Z.ltb_spec i 0).
  - exists x00. split; reflexivity.
  - destruct (Z.gtb_spec i 255); destruct (Z.ltb_spec 255 i); try lia.
    + exists xff. split; reflexivity.
    + apply bytes_of_int_ok. lia.
Qed.

Lemma land_255 (s : Z) : Z.land s 255 = s mod 256.
Proof. change 255 with (Z.ones 8). rewrite Z.land_ones by lia. reflexivity. Qed.

Lemma int_of_byte_range (c : byte) : 0 <= int_of_byte c <= 255.
Proof.
  unfold int_of_byte. pose proof (Byte.to_N_bounded c) as Hc. lia.
Qed.

(** The command built by [color], byte by byte. *)
Lemma color_command_frame (r g b w : Z) :
  exists cmd,
    color_command r g b w = Ok cmd /\
    map int_of_byte cmd =
      [49; clamp r; clamp g; clamp b; clamp w; 15;
       (49 + clamp r + clamp g + clamp b + clamp w + 15) mod 256].
Proof.
  destruct (int2byte_clamp r) as (cr & Er & Hr).
  destruct (int2byte_clamp g) as (cg & Eg & Hg).
  destruct (int2byte_clamp b) as (cb & Eb & Hb).
  destruct (int2byte_clamp w) as (cw & Ew & Hw).
  unfold color_command. rewrite Er, Eg, Eb, Ew. cbn [app].
  unfold __stream_checksum.
  assert (Hsum : Py.sum [x31; cr; cg; cb; cw; x0f]
                 = 49 + clamp r + clamp g + clamp b + clamp w + 15).
  { unfold Py.sum. cbn [fold_left]. rewrite Hr, Hg, Hb, Hw.
    change (int_of_byte x31) with 49. change (int_of_byte x0f) with 15. lia. }
  rewrite Hsum, land_255.
  set (s := 49 + clamp r + clamp g + clamp b + clamp w + 15).
  destruct (bytes_of_int_ok (s mod 256)) as (ck & Eck & Hck).
  { pose proof (Z.mod_pos_bound s 256). lia. }
  rewrite Eck. eexists. split; [reflexivity |].
  cbn [map app]. rewrite Hr, Hg, Hb, Hw, Hck. reflexivity.
Qed.

(** C1.  For all integers r, g, b, w, [color] builds and sends the seven
    bytes 0x31, r', g', b', w', 0x0f, ck, where each channel is clamped
    to [0,255] and ck is the sum of the six bytes before it modulo 256;
    for channels already in [0,255] the last byte is
    (0x31 + r + g + b + w + 0x0f) mod 256. *)
Theorem color_sends_clamped_frame_with_checksum (self : t) (r g b w : Z) (world : World) :
  exists cmd,
    color_command r g b w = Ok cmd /\
    length cmd = 7%nat /\
    map int_of_byte cmd =
      [49; clamp r; clamp g; clamp b; clamp w; 15;
       (49 + clamp r + clamp g + clamp b + clamp w + 15) mod 256] /\
    (0 <= r <= 255 -> 0 <= g <= 255 -> 0 <= b <= 255 -> 0 <= w <= 255 ->
     map int_of_byte cmd = [49; r; g; b; w; 15; (49 + r + g + b + w + 15) mod 256]) /\
    fst (color self r g b w world) = Ok tt /\
    tcp_sent (snd (color self r g b w world))
    = tcp_sent world ++ [(_addr self, cmd)].
Proof.
  destruct (color_command_frame r g b w) as (cmd & Ecmd & Hcmd).
  exists cmd. split; [exact Ecmd |]. split.
  { rewrite <- (length_map int_of_byte), Hcmd. reflexivity. }
  split; [exact Hcmd |]. split.
  { intros Hr Hg Hb Hw. rewrite Hcmd. rewrite !clamp_id by assumption. reflexivity. }
  unfold color, bind, lift. rewrite Ecmd. split; reflexivity.
Qed.

Lemma color_sends_clamped_frame_with_checksum_witness :
  exists cmd,
    color_command 10 20 30 40 = Ok cmd /\
    map int_of_byte cmd = [49; 10; 20; 30; 40; 15; 164].
Proof.
  destruct (color_sends_clamped_frame_with_checksum bulb 10 20 30 40 (fresh_world []))
    as (cmd & Ecmd & _ & _ & Hin & _).
  exists cmd. split; [exact Ecmd |].
  apply Hin; lia.
Defined.

End Codec.

(** ** Controller session *)
Section Session.
Import MagicHomeController.

#[local] Arguments firstn : simpl never.
#[local] Arguments getitem : simpl never.

Lemma getitem_recv (data : bytes) (i : nat) :
  (i < 1024)%nat ->
  getitem (Some (firstn 1024 data)) i = getitem (Some data) i.
Proof.
  intros Hi. unfold getitem. rewrite nth_error_firstn.
  destruct (Nat.ltb_spec i 1024); [reflexivity | lia].
Qed.

Lemma getitem_in_range (data : bytes) (i : nat) :
  (i < length data)%nat ->
  exists c, nth_error data i = Some c /\ getitem (Some data) i = Ok (int_of_byte c).
Proof.
  intros Hi. unfold getitem.
  destruct (nth_error data i) as [c |] eqn:E.
  - exists c. split; reflexivity.
  - apply nth_error_None in E. lia.
Qed.

Lemma getitem_out_of_range (data : bytes) (i : nat) :
  (length data <= i)%nat -> getitem (Some data) i = Raise IndexError.
Proof.
  intros Hi. unfold getitem.
  apply nth_error_None in Hi. rewrite Hi. reflexivity.
Qed.

(** What [state] returns and sends when the device answers [data]. *)
Lemma state_answered (self : t) (world : World) (data : bytes) (rest : list recv_result) :
  tcp_inbox world = Data data :: rest ->
  fst (state self world)
  = (status <~ getitem (Some data) 2 ;;
     r <~ getitem (Some data) 6 ;;
     g <~ getitem (Some data) 7 ;;
     b <~ getitem (Some data) 8 ;;
     w <~ getitem (Some data) 9 ;;
     Ok (MagicHomeControllerState.mk
           (if status =? 35 then Some true else None)
           (MagicHomeControllerColorState.mk r g b w)))
  /\ tcp_sent (snd (state self world))
     = tcp_sent world ++ [(_addr self, encodeQueryState)]
  /\ tcp_inbox (snd (state self world)) = rest.
Proof.
  destruct world as [dbg sent inbox usent lg n]. cbn [tcp_inbox tcp_sent].
  intros ->.
  rewrite <- !(getitem_recv data) by lia.
  unfold state, _send, bind, lift, ret, tcp_send, tcp_recv, logger_debug, rbind.
  destruct dbg; cbn; unfold bytes;
    repeat match goal with
      | |- context [getitem ?r ?i] => destruct (getitem r i); cbn
      | |- context [?x =? 35] => destruct (x =? 35); cbn
      end;
    repeat split; reflexivity.
Qed.

(** What [state] does when the device stays silent. *)
Lemma state_silent (self : t) (world : World) :
  (tcp_inbox world = [] \/ exists rest, tcp_inbox world = Timeout :: rest) ->
  fst (state self world) = Raise TypeError
  /\ tcp_sent (snd (state self world))
     = tcp_sent world ++ [(_addr self, encodeQueryState)].
Proof.
  destruct world as [dbg sent inbox usent lg n]. cbn [tcp_inbox tcp_sent].
  intros [-> | [rest ->]];
    unfold state, _send, bind, lift, ret, raise, tcp_send, tcp_recv, logger_debug;
    destruct dbg; cbn; auto.
Qed.

Lemma int_of_byte_inj (c d : byte) : int_of_byte c = int_of_byte d -> c = d.
Proof.
  unfold int_of_byte. intros H. apply N2Z.inj in H.
  pose proof (Byte.of_to_N c) as Hc. rewrite H, Byte.of_to_N in Hc.
  congruence.
Qed.

Lemma turn_on_sends (self : t) (world : World) :
  fst (turn_on self world) = Ok tt
  /\ tcp_sent (snd (turn_on self world)) = tcp_sent world ++ [(_addr self, encodeTurnOn)].
Proof. split; reflexivity. Qed.

Lemma turn_off_sends (self : t) (world : World) :
  fst (turn_off self world) = Ok tt
  /\ tcp_sent (snd (turn_off self world)) = tcp_sent world ++ [(_addr self, encodeTurnOff)].
Proof. split; reflexivity. Qed.

(** A response of ten bytes or more is decoded without error. *)
Lemma state_of_long_response (self : t) (world : World) (data : bytes) (rest : list recv_result) :
  tcp_inbox world = Data data :: rest ->
  (10 <= length data)%nat ->
  exists status cr cg cb cw,
    nth_error data 2 = Some status /\
    nth_error data 6 = Some cr /\ nth_error data 7 = Some cg /\
    nth_error data 8 = Some cb /\ nth_error data 9 = Some cw /\
    fst (state self world)
    = Ok (MagicHomeControllerState.mk
            (if int_of_byte status =? 35 then Some true else None)
            (MagicHomeControllerColorState.mk
               (int_of_byte cr) (int_of_byte cg) (int_of_byte cb) (int_of_byte cw))).
Proof.
  intros Hin Hlen.
  destruct (state_answered self world data rest Hin) as (Hst & _).
  destruct (getitem_in_range data 2) as (status & E2 & G2); [lia |].
  destruct (getitem_in_range data 6) as (cr & E6 & G6); [lia |].
  destruct (getitem_in_range data 7) as (cg & E7 & G7); [lia |].
  destruct (getitem_in_range data 8) as (cb & E8 & G8); [lia |].
  destruct (getitem_in_range data 9) as (cw & E9 & G9); [lia |].
  exists status, cr, cg, cb, cw.
  rewrite Hst, G2, G6, G7, G8, G9. cbn [rbind]. auto 10.
Qed.

(** C2.  For every query response of at least 10 bytes, [state] yields a
    controller state whose on/off flag is true exactly when byte 2 is 0x23,
    is indeterminate ([None], never false) for every other value of byte 2,
    and whose red, green, blue and white channels are bytes 6, 7, 8, 9. *)
Theorem state_decodes_query_response
  (self : t) (world : World) (data : bytes) (rest : list recv_result) :
  tcp_inbox world = Data data :: rest ->
  (10 <= length data)%nat ->
  exists st,
    fst (state self world) = Ok st /\
    (MagicHomeControllerState.is_on st = Some true <-> nth_error data 2 = Some x23) /\
    (nth_error data 2 <> Some x23 -> MagicHomeControllerState.is_on st = None) /\
    MagicHomeControllerState.is_on st <> Some false /\
    option_map int_of_byte (nth_error data 6)
    = Some (MagicHomeControllerColorState.r (MagicHomeControllerState.color st)) /\
    option_map int_of_byte (nth_error data 7)
    = Some (MagicHomeControllerColorState.g (MagicHomeControllerState.color st)) /\
    option_map int_of_byte (nth_error data 8)
    = Some (MagicHomeControllerColorState.b (MagicHomeControllerState.color st)) /\
    option_map int_of_byte (nth_error data 9)
    = Some (MagicHomeControllerColorState.w (MagicHomeControllerState.color st)).
Proof.
  intros Hin Hlen.
  destruct (state_of_long_response self world data rest Hin Hlen)
    as (status & cr & cg & cb & cw & E2 & E6 & E7 & E8 & E9 & Hst).
  eexists. split; [exact Hst |].
  rewrite E2, E6, E7, E8, E9. cbn.
  destruct (Z.eqb_spec (int_of_byte status) 35) as [H35 | H35].
  - apply (int_of_byte_inj status x23) in H35. subst status.
    repeat split; congruence.
  - assert (status <> x23) by (intros ->; apply H35; reflexivity).
    repeat split; congruence.
Qed.

Lemma state_decodes_query_response_witness :
  exists st,
    fst (state bulb (fresh_world [Data [x81; x25; x23; x61; x21; x10; x0a; x14; x1e; x28]]))
    = Ok st /\
    MagicHomeControllerState.is_on st = Some true /\
    MagicHomeControllerColorState.int (MagicHomeControllerState.color st) = (10, 20, 30, 40).
Proof.
  destruct (state_decodes_query_response bulb
              (fresh_world [Data [x81; x25; x23; x61; x21; x10; x0a; x14; x1e; x28]])
              [x81; x25; x23; x61; x21; x10; x0a; x14; x1e; x28] [])
    as (st & Hst & Hon & _ & _ & H6 & H7 & H8 & H9);
    [reflexivity | simpl; lia |].
  exists st. split; [exact Hst |]. split.
  - apply Hon. reflexivity.
  - unfold MagicHomeControllerColorState.int.
    cbn in H6, H7, H8, H9. congruence.
Defined.

(** C3, at the failing inputs: no response before the timeout, and a
    response of three bytes.  On a timeout [_send] returns [None], as its
    annotation and docstring say, and [state] subscripts it without a
    test: the call ends in [TypeError] (with debug logging on, in the
    [TypeError] of [__str2hex] iterating over [None]), and so does
    [is_on], whose docstring promises [None] when the state cannot be
    determined.  A short response ends in the [IndexError] of the first
    subscript past its end.  Neither is a failure the code raises for
    the purpose: the response is never checked. *)
Theorem state_crashes_on_short_or_missing_response :
  fst (_send bulb encodeQueryState true (fresh_world [Timeout])) = Ok None /\
  fst (state bulb (fresh_world [Timeout])) = Raise TypeError /\
  fst (state bulb (fresh_world [])) = Raise TypeError /\
  fst (state bulb (mkWorld true [] [Timeout] [] [] 0)) = Raise TypeError /\
  __str2hex None = Raise TypeError /\
  fst (is_on bulb (fresh_world [Timeout])) = Raise TypeError /\
  fst (state bulb (fresh_world [Data [x81; x25; x23]])) = Raise IndexError /\
  fst (state bulb (fresh_world [Data [x81; x25; x23; x61; x21; x10; x0a; x14; x1e]]))
  = Raise IndexError.
Proof. repeat split; vm_compute; reflexivity. Qed.

(** A response whose byte 2 is not 0x23 gives the indeterminate flag. *)
Lemma state_decodes_indeterminate
  (self : t) (world : World) (data : bytes) (rest : list recv_result) :
  tcp_inbox world = Data data :: rest ->
  (10 <= length data)%nat ->
  nth_error data 2 <> Some x23 ->
  exists st, fst (state self world) = Ok st /\ MagicHomeControllerState.is_on st = None.
Proof.
  intros Hin Hlen Hoff.
  destruct (state_of_long_response self world data rest Hin Hlen)
    as (status & cr & cg & cb & cw & E2 & _ & _ & _ & _ & Hst).
  eexists. split; [exact Hst |]. cbn.
  destruct (Z.eqb_spec (int_of_byte status) 35) as [H35 | H35]; [| reflexivity].
  apply (int_of_byte_inj status x23) in H35. congruence.
Qed.

(** [power_toggle] after a decoded state: the query, then one command. *)
Lemma power_toggle_after_state (self : t) (world : World) (st : MagicHomeControllerState.t) :
  fst (state self world) = Ok st ->
  fst (power_toggle self world) = Ok tt /\
  payloads (snd (power_toggle self world))
  = payloads (snd (state self world))
    ++ [match MagicHomeControllerState.is_on st with
        | Some true => encodeTurnOff
        | _ => encodeTurnOn
        end].
Proof.
  intros Hst. unfold power_toggle, bind.
  destruct (state self world) as [res world']. cbn [fst snd] in *. subst res.
  unfold payloads.
  destruct (MagicHomeControllerState.is_on st) as [[|] |];
    (split; [reflexivity |]); cbn [snd turn_on turn_off];
    [ rewrite (proj2 (turn_off_sends self world'))
    | rewrite (proj2 (turn_on_sends self world'))
    | rewrite (proj2 (turn_on_sends self world')) ];
    rewrite map_app; reflexivity.
Qed.

(** C9.  [power_toggle] queries the state of the device and sends the
    turn-off command exactly when the reported flag is on; in every other
    case, the indeterminate flag included, it sends the turn-on command. *)
Theorem power_toggle_turns_off_exactly_when_on
  (self : t) (world : World) (data : bytes) (rest : list recv_result) :
  tcp_inbox world = Data data :: rest ->
  (10 <= length data)%nat ->
  exists st,
    fst (state self world) = Ok st /\
    fst (power_toggle self world) = Ok tt /\
    (MagicHomeControllerState.is_on st = Some true ->
     payloads (snd (power_toggle self world))
     = payloads world ++ [encodeQueryState; encodeTurnOff]) /\
    (MagicHomeControllerState.is_on st <> Some true ->
     payloads (snd (power_toggle self world))
     = payloads world ++ [encodeQueryState; encodeTurnOn]) /\
    (MagicHomeControllerState.is_on st = None ->
     payloads (snd (power_toggle self world))
     = payloads world ++ [encodeQueryState; encodeTurnOn]).
Proof.
  intros Hin Hlen.
  destruct (state_of_long_response self world data rest Hin Hlen)
    as (status & cr & cg & cb & cw & _ & _ & _ & _ & _ & Hst).
  destruct (state_answered self world data rest Hin) as (_ & Hsent & _).
  destruct (power_toggle_after_state self world _ Hst) as (Hok & Hpay).
  eexists. split; [exact Hst |]. split; [exact Hok |].
  rewrite Hpay. unfold payloads at 1 3 5. rewrite Hsent, map_app, <- app_assoc.
  cbn [map snd app MagicHomeControllerState.is_on]. fold (payloads world).
  destruct (int_of_byte status =? 35); repeat split; intros H;
    try reflexivity; congruence.
Qed.

Lemma power_toggle_turns_off_exactly_when_on_witness :
  payloads (snd (power_toggle bulb
                   (fresh_world [Data [x81; x25; x23; x61; x21; x10; x0a; x14; x1e; x28]])))
  = [encodeQueryState; encodeTurnOff] /\
  payloads (snd (power_toggle bulb
                   (fresh_world [Data [x81; x25; x24; x61; x21; x10; x0a; x14; x1e; x28]])))
  = [encodeQueryState; encodeTurnOn].
Proof.
  split.
  - destruct (power_toggle_turns_off_exactly_when_on bulb
                (fresh_world [Data [x81; x25; x23; x61; x21; x10; x0a; x14; x1e; x28]])
                [x81; x25; x23; x61; x21; x10; x0a; x14; x1e; x28] [])
      as (st & Hst & _ & Hon & _); [reflexivity | simpl; lia |].
    apply Hon. cbv in Hst. injection Hst as <-. reflexivity.
  - destruct (power_toggle_turns_off_exactly_when_on bulb
                (fresh_world [Data [x81; x25; x24; x61; x21; x10; x0a; x14; x1e; x28]])
                [x81; x25; x24; x61; x21; x10; x0a; x14; x1e; x28] [])
      as (st & Hst & _ & _ & _ & Hnone); [reflexivity | simpl; lia |].
    apply Hnone. cbv in Hst. injection Hst as <-. reflexivity.
Defined.

(** C10.  The [state] setter given a state whose flag is indeterminate
    ([None]) does what it does for a state that is off: it sends the
    turn-off command and nothing else, so the colour is never pushed;
    [power_toggle] on an indeterminate flag sends the turn-on command, the
    opposite power outcome. *)
Theorem state_setter_indeterminate_turns_off
  (self : t) (c : MagicHomeControllerColorState.t) (world : World) :
  state_setter self (MagicHomeControllerState.mk None c) world
  = state_setter self (MagicHomeControllerState.mk (Some false) c) world /\
  fst (state_setter self (MagicHomeControllerState.mk None c) world) = Ok tt /\
  payloads (snd (state_setter self (MagicHomeControllerState.mk None c) world))
  = payloads world ++ [encodeTurnOff] /\
  (forall data rest,
      tcp_inbox world = Data data :: rest ->
      (10 <= length data)%nat ->
      nth_error data 2 <> Some x23 ->
      payloads (snd (power_toggle self world))
      = payloads world ++ [encodeQueryState; encodeTurnOn]).
Proof.
  split; [reflexivity |]. split; [reflexivity |]. split.
  - unfold payloads. cbn [state_setter MagicHomeControllerState.is_on].
    rewrite (proj2 (turn_off_sends self world)), map_app. reflexivity.
  - intros data rest Hin Hlen Hoff.
    destruct (state_decodes_indeterminate self world data rest Hin Hlen Hoff)
      as (st & Hst & Hnone).
    destruct (state_answered self world data rest Hin) as (_ & Hsent & _).
    destruct (power_toggle_after_state self world _ Hst) as (_ & Hpay).
    rewrite Hpay, Hnone. unfold payloads. rewrite Hsent, map_app, <- app_assoc.
    reflexivity.
Qed.

Lemma state_setter_indeterminate_turns_off_witness :
  payloads (snd (state_setter bulb
                   (MagicHomeControllerState.mk None (MagicHomeControllerColorState.mk 10 20 30 40))
                   (fresh_world [Data [x81; x25; x24; x61; x21; x10; x0a; x14; x1e; x28]])))
  = [encodeTurnOff] /\
  payloads (snd (power_toggle bulb
                   (fresh_world [Data [x81; x25; x24; x61; x21; x10; x0a; x14; x1e; x28]])))
  = [encodeQueryState; encodeTurnOn].
Proof.
  pose proof (state_setter_indeterminate_turns_off bulb
                (MagicHomeControllerColorState.mk 10 20 30 40)
                (fresh_world [Data [x81; x25; x24; x61; x21; x10; x0a; x14; x1e; x28]]))
    as (_ & _ & Hset & Htoggle).
  split; [exact Hset |].
  apply (Htoggle [x81; x25; x24; x61; x21; x10; x0a; x14; x1e; x28] []);
    [reflexivity | simpl; lia | cbn; congruence].
Defined.

End Session.


(** ** Discovery *)
Section Discovery.
Import MagicHomeController MagicHome.

Lemma split_not_empty (sep : byte) (data : bytes) : split sep data <> [].
Proof.
  destruct data as [| c rest]; cbn; [discriminate |].
  destruct (Byte.eqb c sep); [discriminate |].
  destruct (split sep rest); discriminate.
Qed.

(** An object just created is not in the set: [==] is identity. *)
Lemma set_add_new_object (found : list t) (c : t) :
  Forall (fun x => (oid x < oid c)%nat) found ->
  set_add found c = found ++ [c].
Proof.
  intros Hfresh. unfold set_add.
  assert (E : existsb (fun x => bytes_eqb (__hash__ x) (__hash__ c) && __eq__ x c) found
              = false).
  { induction Hfresh as [| x found Hx _ IH]; cbn; [reflexivity |].
    rewrite IH. unfold __eq__.
    destruct (Nat.eqb_spec (oid x) (oid c)); [lia |].
    rewrite andb_false_r. reflexivity. }
  rewrite E. reflexivity.
Qed.

Lemma Forall_older (found : list t) (n : nat) :
  Forall (fun x => (oid x < n)%nat) found ->
  Forall (fun x => (oid x < S n)%nat) found.
Proof. apply Forall_impl. intros; lia. Qed.

(** One turn of the receive loop: the datagram is dropped (the probe coming
    back), turned into a controller that is added to the set, or skipped
    with a warning; in each case the loop goes on with the next datagram. *)
Lemma discover_loop_step (dbg : bool) (sent : list (bytes * bytes))
  (inbox : list recv_result) (usent : list (option bytes * bytes))
  (d : bytes) (later : list bytes) (found : list t) (lg : list log_record) (n : nat) :
  Forall (fun x => (oid x < n)%nat) found ->
  exists found1 lg1 n1,
    discover_loop (d :: later) found (mkWorld dbg sent inbox usent lg n)
    = discover_loop later found1 (mkWorld dbg sent inbox usent lg1 n1) /\
    Forall (fun x => (oid x < n1)%nat) found1 /\
    map identity found1
    = map identity found
      ++ (if accepted d then [identity_of_fields (fields d)] else []) /\
    filter is_warning lg1
    = filter is_warning lg
      ++ (if skipped d then [WarningInvalidBroadcastAnswer (received d)] else []).
Proof.
  intros Hfresh.
  cbn [discover_loop]. unfold accepted, skipped, is_probe, fields, received.
  unfold bind, try_except, logger_debug, logger_warning, ret.
  pose proof (split_not_empty x2c (firstn 1024 d)) as Hne.
  destruct dbg; cbn [debug];
    (destruct (bytes_eqb (firstn 1024 d) __broadcast_message); cbn [negb andb];
     [ eexists found, _, n; (split; [reflexivity |]); (split; [exact Hfresh |]);
       rewrite ?filter_app; cbn; rewrite !app_nil_r; auto
     | destruct (split x2c (firstn 1024 d)) as [| f0 [| f1 [| f2 [| f3 fs]]]];
       [congruence | | | |];
       cbn [new bind raise new_oid ret next_oid length Nat.leb Nat.ltb
              debug tcp_sent tcp_inbox udp_sent log];
       [ | | | eexists found, _, n; (split; [reflexivity |]);
               (split; [exact Hfresh |]);
               rewrite !filter_app; cbn; rewrite ?app_nil_r; auto ];
       match goal with
       | |- context [set_add ?fnd ?c] =>
           rewrite (set_add_new_object fnd c) by exact Hfresh;
           eexists (fnd ++ [c]), _, (S n); (split; [reflexivity |]);
           (split;
            [ apply Forall_app; split;
              [ apply Forall_older; exact Hfresh
              | constructor; [cbn; lia | constructor] ] |]);
           rewrite map_app, ?filter_app; cbn; rewrite ?app_nil_r; auto
       end ]).
Qed.

(** The whole receive loop: it ends normally, the accepted responses are
    added in the order they arrive, the skipped ones are logged. *)
Lemma discover_loop_spec (dbg : bool) (sent : list (bytes * bytes))
  (inbox : list recv_result) (usent : list (option bytes * bytes)) :
  forall (arriving : list bytes) (found : list t) (lg : list log_record) (n : nat),
    Forall (fun x => (oid x < n)%nat) found ->
    exists found' lg' n',
      discover_loop arriving found (mkWorld dbg sent inbox usent lg n)
      = (Ok found', mkWorld dbg sent inbox usent lg' n') /\
      map identity found'
      = map identity found
        ++ map (fun d => identity_of_fields (fields d)) (filter accepted arriving) /\
      filter is_warning lg'
      = filter is_warning lg
        ++ map (fun d => WarningInvalidBroadcastAnswer (received d)) (filter skipped arriving).
Proof.
  induction arriving as [| d later IH]; intros found lg n Hfresh.
  - exists found, lg, n. cbn. rewrite !app_nil_r. auto.
  - destruct (discover_loop_step dbg sent inbox usent d later found lg n Hfresh)
      as (found1 & lg1 & n1 & Hstep & Hfresh1 & Hid1 & Hlog1).
    destruct (IH found1 lg1 n1 Hfresh1) as (found' & lg' & n' & Hrun & Hid & Hlog).
    exists found', lg', n'. rewrite Hstep. split; [exact Hrun |].
    rewrite Hid, Hid1, Hlog, Hlog1, <- !app_assoc. cbn [filter].
    destruct (accepted d); destruct (skipped d); auto.
Qed.

(** [discover] as a whole, for any world it is started in. *)
Lemma discover_spec (arriving : list bytes) (world : World) :
  exists found,
    fst (discover arriving world) = Ok found /\
    map identity found
    = map (fun d => identity_of_fields (fields d)) (filter accepted arriving) /\
    warnings (snd (discover arriving world))
    = warnings world
      ++ map (fun d => WarningInvalidBroadcastAnswer (received d)) (filter skipped arriving).
Proof.
  destruct world as [dbg sent inbox usent lg n].
  unfold discover, bind, udp_sendto, logger_debug. cbn [debug tcp_sent tcp_inbox udp_sent log next_oid].
  destruct dbg;
    match goal with
    | |- context [discover_loop _ [] (mkWorld ?d ?s ?i ?u ?l ?m)] =>
        destruct (discover_loop_spec d s i u arriving [] l m (Forall_nil _))
          as (found' & lg' & n' & Hrun & Hid & Hlog)
    end;
    rewrite Hrun; exists found'; cbn [fst snd];
    (split; [reflexivity |]); (split; [exact Hid |]);
    unfold warnings; cbn [log]; rewrite Hlog, ?filter_app; cbn;
    rewrite ?app_nil_r; reflexivity.
Qed.

(** C4, at the failing input: two responses from one address.  Each
    response becomes an object of its own; [__hash__] looks at the address
    but [==] is identity, so the set keeps both and [discover] yields two
    controllers with the same address. *)
Theorem discover_yields_same_address_twice :
  exists c1 c2,
    fst (discover [ascii "192.168.68.240,600194A1B2C3,AK001-ZJ200";
                   ascii "192.168.68.240,600194A1B2C3,AK001-ZJ200"]
           (fresh_world []))
    = Ok [c1; c2] /\
    _addr c1 = ascii "192.168.68.240" /\
    _addr c2 = ascii "192.168.68.240" /\
    __hash__ c1 = __hash__ c2 /\
    __eq__ c1 c2 = false.
Proof. do 2 eexists. vm_compute. repeat split. Qed.

(** C5, at the failing input: a response with one field only.  It does
    not split into three fields, and yet [discover] does not skip it: no
    warning is logged and a controller without id and model is yielded,
    on which reading [id] or [model] raises [AttributeError].  The
    handler that logs the invalid answers sees only the responses of more
    than three fields, like the one of four fields here, which is skipped
    with its warning. *)
Theorem discover_accepts_one_field_answer :
  ~ well_formed (ascii "192.168.68.240") /\
  fst (discover [ascii "192.168.68.240"] (fresh_world []))
  = Ok [MagicHomeController.mk 0 (ascii "192.168.68.240") None None] /\
  warnings (snd (discover [ascii "192.168.68.240"] (fresh_world []))) = [] /\
  (forall utf8,
      id utf8 (MagicHomeController.mk 0 (ascii "192.168.68.240") None None)
      = inl AttributeError /\
      model utf8 (MagicHomeController.mk 0 (ascii "192.168.68.240") None None)
      = inl AttributeError) /\
  fst (discover [ascii "a,b,c,d"] (fresh_world [])) = Ok [] /\
  warnings (snd (discover [ascii "a,b,c,d"] (fresh_world [])))
  = [WarningInvalidBroadcastAnswer (ascii "a,b,c,d")].
Proof.
  split; [unfold well_formed; vm_compute; discriminate |].
  repeat split; vm_compute; reflexivity.
Qed.

(** [connect] on a first datagram, by the number of its fields. *)
Lemma connect_answered (addr d : bytes) (later : list bytes) (world : World) :
  fst (connect addr (d :: later) world)
  = if (length (fields d) <=? 3)%nat
    then Ok (MagicHomeController.mk (next_oid world)
               (hd [] (fields d)) (nth_error (fields d) 1) (nth_error (fields d) 2))
    else Raise MagicHomeDeviceNotFound.
Proof.
  destruct world as [dbg sent inbox usent lg n].
  unfold connect, fields, received.
  unfold bind, try_except, udp_sendto, logger_debug, logger_warning, raise.
  pose proof (split_not_empty x2c (firstn 1024 d)) as Hne.
  destruct dbg; cbn [debug];
    destruct (split x2c (firstn 1024 d)) as [| f0 [| f1 [| f2 [| f3 fs]]]];
    try congruence; reflexivity.
Qed.

(** C6, at the failing input: a response with one field only.  It does
    not split into three fields, and [connect] returns a controller for
    it instead of raising [MagicHomeDeviceNotFound]; reading [id] or
    [model] on that controller raises [AttributeError].  The probe coming
    back is such a response: [connect] returns it as a controller whose
    address is the probe text.  Only a response of more than three
    fields, like the one of four fields here, is refused. *)
Theorem connect_accepts_one_field_answer :
  ~ well_formed (ascii "192.168.68.240") /\
  fst (connect (ascii "192.168.68.240") [ascii "192.168.68.240"] (fresh_world []))
  = Ok (MagicHomeController.mk 0 (ascii "192.168.68.240") None None) /\
  (forall utf8,
      id utf8 (MagicHomeController.mk 0 (ascii "192.168.68.240") None None)
      = inl AttributeError /\
      model utf8 (MagicHomeController.mk 0 (ascii "192.168.68.240") None None)
      = inl AttributeError) /\
  fst (connect (ascii "192.168.68.240") [__broadcast_message] (fresh_world []))
  = Ok (MagicHomeController.mk 0 __broadcast_message None None) /\
  fst (connect (ascii "192.168.68.240") [ascii "a,b,c,d"] (fresh_world []))
  = Raise MagicHomeDeviceNotFound.
Proof.
  split; [unfold well_formed; vm_compute; discriminate |].
  repeat split; vm_compute; reflexivity.
Qed.

End Discovery.

(** ** Brightness *)
Section Brightness.
Import PyFloat MagicHomeControllerColorState.

(** A delta of zero, or no delta, leaves the colour as it is, in both
    modes. *)
Lemma change_brightness_zero_delta (self : t) (percentage : bool) :
  change_brightness self (Some 0%float) percentage = (self, None) /\
  change_brightness self (Some (-0)%float) percentage = (self, None) /\
  change_brightness self None percentage = (self, None).
Proof. repeat split. Qed.

(** The luminance [rgb_to_hls] returns is half the sum of the largest and
    the smallest channel. *)
Lemma rgb_to_hls_luminance (r g b : Z) (h l s : float) :
  colorsys.rgb_to_hls r g b = Ok (h, l, s) ->
  exists fsumc,
    of_int (Z.max (Z.max r g) b + Z.min (Z.min r g) b) = Ok fsumc /\
    l = (fsumc / 2)%float.
Proof.
  unfold colorsys.rgb_to_hls.
  destruct (of_int (Z.max (Z.max r g) b + Z.min (Z.min r g) b)) as [fsumc |];
    cbn [rbind]; [| discriminate].
  change (truediv fsumc 2) with (Ok (fsumc / 2)%float : result float). cbn [rbind].
  intros H. exists fsumc. split; [reflexivity |].
  destruct (Z.min (Z.min r g) b =? Z.max (Z.max r g) b).
  - injection H as _ <- _. reflexivity.
  - repeat match type of H with
      | rbind ?x _ = _ => destruct x; cbn [rbind] in H; [| discriminate]
      end.
    injection H as _ <- _. reflexivity.
Qed.

Lemma luminance_within_reach_all :
  forallb luminance_within_reach (map Z.of_nat (seq 0 511)) = true.
Proof. vm_compute. reflexivity. Qed.

(** Where the conversion to hue, luminance and saturation succeeds, the
    large deltas 256 and -256 bring the luminance to 255 and to 0. *)
Lemma adjust_luminance_clamps (r g b : Z) (h l s : float) :
  0 <= r <= 255 -> 0 <= g <= 255 -> 0 <= b <= 255 ->
  colorsys.rgb_to_hls r g b = Ok (h, l, s) ->
  adjust_luminance l 256 false = 255%float /\
  adjust_luminance l (-256) false = 0%float.
Proof.
  intros Hr Hg Hb Hhls.
  destruct (rgb_to_hls_luminance r g b h l s Hhls) as (fsumc & Hsum & ->).
  set (sumc := Z.max (Z.max r g) b + Z.min (Z.min r g) b) in Hsum.
  assert (Hrange : 0 <= sumc <= 510) by (unfold sumc; lia).
  pose proof luminance_within_reach_all as Hall.
  rewrite forallb_forall in Hall.
  specialize (Hall sumc).
  unfold luminance_within_reach in Hall. rewrite Hsum in Hall.
  assert (Hin : In sumc (map Z.of_nat (seq 0 511))).
  { apply in_map_iff. exists (Z.to_nat sumc). split; [lia |].
    apply in_seq. lia. }
  apply Hall in Hin. apply andb_true_iff in Hin. destruct Hin as (Hin & Hlow).
  apply andb_true_iff in Hin. destruct Hin as (Hneg & Hhigh).
  apply negb_true_iff in Hneg.
  unfold adjust_luminance. rewrite Hneg, Hhigh, Hlow. split; reflexivity.
Qed.

(** C7, at the failing input: pure red made one unit brighter.  The
    luminance stays in [0,255], but the red written back is 257, which
    [stream] can no longer turn into a byte; with a larger delta green and
    blue come back negative. *)
Theorem change_brightness_leaves_channel_range :
  change_brightness (mk 255 0 0 0) (Some 1%float) false = (mk 257 0 0 0, None) /\
  stream (mk 257 0 0 0) = Raise ValueError /\
  change_brightness (mk 255 0 0 0) (Some 1000%float) false = (mk 511 (-1) (-1) 0, None) /\
  change_brightness (mk 254 166 87 0) (Some 100%float) false = (mk 380 248 129 0, None).
Proof. repeat split; vm_compute; reflexivity. Qed.

(** C8, at the failing input: the colour (2, 0, 0).  The largest and the
    smallest channel add up to 2, the saturation is a division by
    [2.0 - 2 - 0], and the call ends in [ZeroDivisionError] before any
    luminance is adjusted, whatever the delta. *)
Theorem change_brightness_division_by_zero :
  colorsys.rgb_to_hls 2 0 0 = Raise ZeroDivisionError /\
  change_brightness (mk 2 0 0 0) (Some 1000%float) false
  = (mk 2 0 0 0, Some ZeroDivisionError) /\
  change_brightness (mk 2 0 0 0) (Some (-1000)%float) false
  = (mk 2 0 0 0, Some ZeroDivisionError).
Proof. repeat split; vm_compute; reflexivity. Qed.

End Brightness.


(** * Further properties of the code *)

(** ** Checksum and frames *)
Section Frames.
Import MagicHomeController.

Lemma sum_from (stream : bytes) (acc : Z) :
  fold_left (fun a c => a + int_of_byte c) stream acc = acc + Py.sum stream.
Proof.
  unfold Py.sum. revert acc.
  induction stream as [| c rest IH]; intros acc; cbn [fold_left]; [lia |].
  rewrite IH, (IH (0 + int_of_byte c)). lia.
Qed.

Lemma sum_cons (c : byte) (stream : bytes) :
  Py.sum (c :: stream) = int_of_byte c + Py.sum stream.
Proof. unfold Py.sum at 1. cbn [fold_left]. rewrite sum_from. lia. Qed.

Lemma sum_permutation (s1 s2 : bytes) : Permutation s1 s2 -> Py.sum s1 = Py.sum s2.
Proof.
  induction 1 as [| c l l' _ IH | c d l | l l' l'' _ IH1 _ IH2].
  - reflexivity.
  - rewrite !sum_cons, IH. reflexivity.
  - rewrite !sum_cons. lia.
  - congruence.
Qed.

(** X1.  [__stream_checksum] never raises: for a stream of any length it
    returns one byte, the sum of the stream modulo 256; the order of the
    bytes does not matter, so a stream and any rearrangement of it have
    the same checksum. *)
Theorem stream_checksum_is_sum_mod_256 (stream : bytes) :
  (exists c, __stream_checksum stream = Ok [c] /\
             int_of_byte c = Py.sum stream mod 256) /\
  (forall stream', Permutation stream stream' ->
                   __stream_checksum stream' = __stream_checksum stream).
Proof.
  split.
  - unfold __stream_checksum. rewrite land_255.
    apply bytes_of_int_ok. pose proof (Z.mod_pos_bound (Py.sum stream) 256). lia.
  - intros stream' Hperm. unfold __stream_checksum.
    rewrite (sum_permutation stream stream' Hperm). reflexivity.
Qed.

Lemma stream_checksum_is_sum_mod_256_witness :
  __stream_checksum [x0f; x31; xff] = __stream_checksum [x31; xff; x0f].
Proof.
  apply (proj2 (stream_checksum_is_sum_mod_256 [x31; xff; x0f])).
  apply Permutation_sym, Permutation_cons_append.
Defined.

Lemma payloads_snoc (world world' : World) (addr payload : bytes) :
  tcp_sent world' = tcp_sent world ++ [(addr, payload)] ->
  payloads world' = payloads world ++ [payload].
Proof. unfold payloads. intros ->. rewrite map_app. reflexivity. Qed.

(** [state] sends the query and nothing else, whatever comes back. *)
Lemma state_sends_query (self : t) (world : World) :
  tcp_sent (snd (state self world)) = tcp_sent world ++ [(_addr self, encodeQueryState)].
Proof.
  destruct (tcp_inbox world) as [| [data |] rest] eqn:Hin.
  - apply (state_silent self world). left. exact Hin.
  - apply (state_answered self world data rest Hin).
  - apply (state_silent self world). right. exists rest. exact Hin.
Qed.

(** [color] always succeeds and sends the command it built. *)
Lemma color_sends (self : t) (r g b w : Z) (world : World) :
  exists cmd,
    color_command r g b w = Ok cmd /\
    fst (color self r g b w world) = Ok tt /\
    tcp_sent (snd (color self r g b w world)) = tcp_sent world ++ [(_addr self, cmd)].
Proof.
  destruct (color_command_frame r g b w) as (cmd & Ecmd & _).
  exists cmd. split; [exact Ecmd |].
  unfold color, bind, lift. rewrite Ecmd. split; reflexivity.
Qed.

Lemma color_command_checksummed (r g b w : Z) (cmd : bytes) :
  color_command r g b w = Ok cmd -> checksummed cmd.
Proof.
  unfold color_command.
  destruct (__int2byte r) as [br |]; [| destruct (__int2byte g), (__int2byte b), (__int2byte w); discriminate].
  destruct (__int2byte g) as [bg |]; [| destruct (__int2byte b), (__int2byte w); discriminate].
  destruct (__int2byte b) as [bb |]; [| destruct (__int2byte w); discriminate].
  destruct (__int2byte w) as [bw |]; [| discriminate].
  destruct (__stream_checksum ([x31] ++ br ++ bg ++ bb ++ bw ++ [x0f])) as [ck |] eqn:Eck;
    [| discriminate].
  intros H. injection H as <-. exists ([x31] ++ br ++ bg ++ bb ++ bw ++ [x0f]), ck.
  split; [reflexivity | exact Eck].
Qed.

Lemma fixed_commands_checksummed :
  checksummed encodeTurnOn /\ checksummed encodeTurnOff /\ checksummed encodeQueryState.
Proof.
  split; [| split].
  - exists [x71; x23], [x94]. split; reflexivity.
  - exists [x71; x24], [x95]. split; reflexivity.
  - exists [x81; x8a; x8b], [x96]. split; reflexivity.
Qed.

(** What [power_toggle] sends, in every world. *)
Lemma power_toggle_sends (self : t) (world : World) :
  payloads (snd (power_toggle self world))
  = payloads world ++ encodeQueryState
      :: match fst (state self world) with
         | Ok st =>
             [match MagicHomeControllerState.is_on st with
              | Some true => encodeTurnOff
              | _ => encodeTurnOn
              end]
         | Raise _ => []
         end.
Proof.
  pose proof (payloads_snoc _ _ _ _ (state_sends_query self world)) as Hq.
  destruct (fst (state self world)) as [st | e] eqn:Hst.
  - destruct (power_toggle_after_state self world st Hst) as (_ & Hpay).
    rewrite Hpay, Hq, <- app_assoc. reflexivity.
  - unfold power_toggle, bind.
    destruct (state self world) as [res world']. cbn [fst snd] in *. subst res.
    cbn [snd]. exact Hq.
Qed.

(** What the [state] setter sends, in every world. *)
Lemma state_setter_sends (self : t) (s : MagicHomeControllerState.t) (world : World) :
  exists payload,
    fst (state_setter self s world) = Ok tt /\
    payloads (snd (state_setter self s world)) = payloads world ++ [payload] /\
    match MagicHomeControllerState.is_on s with
    | Some true =>
        color_command
          (MagicHomeControllerColorState.r (MagicHomeControllerState.color s))
          (MagicHomeControllerColorState.g (MagicHomeControllerState.color s))
          (MagicHomeControllerColorState.b (MagicHomeControllerState.color s))
          (MagicHomeControllerColorState.w (MagicHomeControllerState.color s))
        = Ok payload
    | _ => payload = encodeTurnOff
    end.
Proof.
  destruct s as [flag c]. unfold state_setter. cbn [MagicHomeControllerState.is_on].
  destruct flag as [[|] |].
  - cbn [MagicHomeControllerState.color MagicHomeControllerColorState.int].
    destruct (color_sends self (MagicHomeControllerColorState.r c)
                (MagicHomeControllerColorState.g c) (MagicHomeControllerColorState.b c)
                (MagicHomeControllerColorState.w c) world) as (cmd & Ecmd & Hok & Hsent).
    exists cmd. split; [exact Hok |]. split; [| exact Ecmd].
    apply (payloads_snoc _ _ _ _ Hsent).
  - exists encodeTurnOff. split; [reflexivity |]. split; [| reflexivity].
    apply (payloads_snoc _ _ _ _ (proj2 (turn_off_sends self world))).
  - exists encodeTurnOff. split; [reflexivity |]. split; [| reflexivity].
    apply (payloads_snoc _ _ _ _ (proj2 (turn_off_sends self world))).
Qed.

(** X2.  Every payload that a controller operation sends ends in the
    checksum of the bytes before it: if this holds of what was sent so
    far, it holds after [turn_on], [turn_off], [color], reading [state],
    [is_on], [power_toggle] and setting [state], whatever the arguments
    and whatever the device answers. *)
Theorem every_payload_sent_is_checksummed (self : t) (world : World) :
  Forall checksummed (payloads world) ->
  Forall checksummed (payloads (snd (turn_on self world))) /\
  Forall checksummed (payloads (snd (turn_off self world))) /\
  (forall r g b w, Forall checksummed (payloads (snd (color self r g b w world)))) /\
  Forall checksummed (payloads (snd (state self world))) /\
  Forall checksummed (payloads (snd (is_on self world))) /\
  Forall checksummed (payloads (snd (power_toggle self world))) /\
  (forall s, Forall checksummed (payloads (snd (state_setter self s world)))).
Proof.
  intros Hworld.
  destruct fixed_commands_checksummed as (Hon & Hoff & Hquery).
  assert (Hstate : Forall checksummed (payloads (snd (state self world)))).
  { rewrite (payloads_snoc _ _ _ _ (state_sends_query self world)).
    apply Forall_app. split; [exact Hworld | repeat constructor; exact Hquery]. }
  repeat split.
  - rewrite (payloads_snoc _ _ _ _ (proj2 (turn_on_sends self world))).
    apply Forall_app. split; [exact Hworld | repeat constructor; exact Hon].
  - rewrite (payloads_snoc _ _ _ _ (proj2 (turn_off_sends self world))).
    apply Forall_app. split; [exact Hworld | repeat constructor; exact Hoff].
  - intros r g b w.
    destruct (color_sends self r g b w world) as (cmd & Ecmd & _ & Hsent).
    rewrite (payloads_snoc _ _ _ _ Hsent).
    apply Forall_app. split; [exact Hworld | repeat constructor].
    apply (color_command_checksummed r g b w cmd Ecmd).
  - exact Hstate.
  - unfold is_on, bind. destruct (state self world) as [[st | e] world'];
      cbn [snd] in *; exact Hstate.
  - rewrite power_toggle_sends. apply Forall_app. split; [exact Hworld |].
    constructor; [exact Hquery |].
    destruct (fst (state self world)) as [st | e]; [| constructor].
    repeat constructor.
    destruct (MagicHomeControllerState.is_on st) as [[|] |]; assumption.
  - intros s. destruct (state_setter_sends self s world) as (payload & _ & Hpay & Hwhat).
    rewrite Hpay. apply Forall_app. split; [exact Hworld | repeat constructor].
    destruct (MagicHomeControllerState.is_on s) as [[|] |].
    + eapply color_command_checksummed. exact Hwhat.
    + subst payload. exact Hoff.
    + subst payload. exact Hoff.
Qed.

Lemma every_payload_sent_is_checksummed_witness :
  Forall checksummed
    (payloads (snd (power_toggle bulb
                      (fresh_world [Data [x81; x25; x23; x61; x21; x10; x0a; x14; x1e; x28]])))).
Proof.
  apply (every_payload_sent_is_checksummed bulb
           (fresh_world [Data [x81; x25; x23; x61; x21; x10; x0a; x14; x1e; x28]])).
  constructor.
Defined.

End Frames.

(** ** More on the controller session *)
Section SessionBehaviour.
Import MagicHomeController.

#[local] Arguments firstn : simpl never.

(** The two ways [state] fails. *)
Lemma state_failures_short_or_silent (self : t) (world : World) :
  (forall data rest,
      tcp_inbox world = Data data :: rest ->
      (length data < 10)%nat ->
      fst (state self world) = Raise IndexError) /\
  ((tcp_inbox world = [] \/ exists rest, tcp_inbox world = Timeout :: rest) ->
   fst (state self world) = Raise TypeError).
Proof.
  split.
  - intros data rest Hin Hlen.
    destruct (state_answered self world data rest Hin) as (Hst & _).
    rewrite Hst.
    repeat match goal with
      | |- context [getitem (Some data) ?i] =>
          let H := fresh "G" in
          destruct (Nat.le_gt_cases (length data) i) as [H | H];
          [ rewrite (getitem_out_of_range data i H); reflexivity
          | destruct (getitem_in_range data i H) as (? & _ & ->); cbn [rbind] ]
      end.
    lia.
  - intros Hsilent. apply (state_silent self world Hsilent).
Qed.




(** X4.  Reading [state] gives a state exactly when the device answers
    the query with at least 10 bytes. *)
Theorem state_succeeds_iff_ten_bytes (self : t) (world : World) :
  (exists st, fst (state self world) = Ok st) <->
  (exists data rest, tcp_inbox world = Data data :: rest /\ (10 <= length data)%nat).
Proof.
  pose proof (state_failures_short_or_silent self world) as (Hshort & Hsilent).
  destruct (tcp_inbox world) as [| [data |] rest] eqn:Hin.
  - rewrite (Hsilent (or_introl eq_refl)).
    split; [intros (st & H); discriminate | intros (d & r & H & _); discriminate].
  - destruct (Nat.le_gt_cases 10 (length data)) as [Hlong | Hlt].
    + destruct (state_of_long_response self world data rest Hin Hlong)
        as (status & cr & cg & cb & cw & _ & _ & _ & _ & _ & Hst).
      rewrite Hst.
      split; [intros _; exists data, rest; auto | intros _; eexists; reflexivity].
    + rewrite (Hshort data rest eq_refl Hlt).
      split; [intros (st & H); discriminate |].
      intros (d & r & H & Hlen). injection H as <- <-. lia.
  - rewrite (Hsilent (or_intror (ex_intro _ rest eq_refl))).
    split; [intros (st & H); discriminate | intros (d & r & H & _); discriminate].
Qed.

Lemma state_succeeds_iff_ten_bytes_witness :
  exists st,
    fst (state bulb (fresh_world [Data [x81; x25; x24; x61; x21; x10; x0a; x14; x1e; x28]]))
    = Ok st.
Proof.
  apply (proj2 (state_succeeds_iff_ten_bytes bulb
                  (fresh_world [Data [x81; x25; x24; x61; x21; x10; x0a; x14; x1e; x28]]))).
  exists [x81; x25; x24; x61; x21; x10; x0a; x14; x1e; x28], [].
  split; [reflexivity | simpl; lia].
Defined.

Lemma bytes_of_int_of_byte (c : byte) : bytes_of_int (int_of_byte c) = Ok [c].
Proof.
  destruct (bytes_of_int_ok (int_of_byte c) (int_of_byte_range c)) as (c' & E & Hc).
  apply int_of_byte_inj in Hc. subst c'. exact E.
Qed.

Lemma bytes_of_int_out_of_range (i : Z) :
  in_byte_range i = false -> bytes_of_int i = Raise ValueError.
Proof.
  unfold in_byte_range, bytes_of_int. intros H.
  destruct (Z.ltb_spec i 0); [reflexivity |].
  destruct (Z.ltb_spec 255 i); [reflexivity |].
  apply andb_false_iff in H. destruct H as [H | H].
  - apply Z.leb_gt in H. lia.
  - apply Z.leb_gt in H. lia.
Qed.

Lemma in_byte_range_spec (i : Z) : in_byte_range i = true <-> 0 <= i <= 255.
Proof.
  unfold in_byte_range. rewrite andb_true_iff, !Z.leb_le. reflexivity.
Qed.

(** X5.  The [stream] and [tuple] properties of a colour work exactly for
    channels that fit a byte: then both give the four channels as bytes,
    in the order red, green, blue, white; with any channel outside
    [0,255] both raise [ValueError]. *)
Theorem stream_and_tuple_need_byte_channels (c : MagicHomeControllerColorState.t) :
  (channels_in_byte_range c = true ->
   exists cr cg cb cw,
     MagicHomeControllerColorState.stream c = Ok [cr; cg; cb; cw] /\
     MagicHomeControllerColorState.tuple c = Ok ([cr], [cg], [cb], [cw]) /\
     map int_of_byte [cr; cg; cb; cw]
     = [MagicHomeControllerColorState.r c; MagicHomeControllerColorState.g c;
        MagicHomeControllerColorState.b c; MagicHomeControllerColorState.w c]) /\
  (channels_in_byte_range c = false ->
   MagicHomeControllerColorState.stream c = Raise ValueError /\
   MagicHomeControllerColorState.tuple c = Raise ValueError).
Proof.
  destruct c as [r g b w].
  unfold channels_in_byte_range, MagicHomeControllerColorState.stream,
    MagicHomeControllerColorState.tuple.
  cbn [MagicHomeControllerColorState.r MagicHomeControllerColorState.g
         MagicHomeControllerColorState.b MagicHomeControllerColorState.w].
  split.
  - intros H. apply andb_true_iff in H. destruct H as (H & Hw).
    apply andb_true_iff in H. destruct H as (H & Hb).
    apply andb_true_iff in H. destruct H as (Hr & Hg).
    apply in_byte_range_spec in Hr, Hg, Hb, Hw.
    destruct (bytes_of_int_ok r Hr) as (cr & Er & Ir).
    destruct (bytes_of_int_ok g Hg) as (cg & Eg & Ig).
    destruct (bytes_of_int_ok b Hb) as (cb & Eb & Ib).
    destruct (bytes_of_int_ok w Hw) as (cw & Ew & Iw).
    exists cr, cg, cb, cw. rewrite Er, Eg, Eb, Ew. cbn. subst. auto.
  - intros H.
    destruct (in_byte_range r) eqn:Hr;
      [| rewrite (bytes_of_int_out_of_range r Hr); split; reflexivity].
    apply in_byte_range_spec in Hr. destruct (bytes_of_int_ok r Hr) as (cr & -> & _).
    destruct (in_byte_range g) eqn:Hg;
      [| rewrite (bytes_of_int_out_of_range g Hg); split; reflexivity].
    apply in_byte_range_spec in Hg. destruct (bytes_of_int_ok g Hg) as (cg & -> & _).
    destruct (in_byte_range b) eqn:Hb;
      [| rewrite (bytes_of_int_out_of_range b Hb); split; reflexivity].
    apply in_byte_range_spec in Hb. destruct (bytes_of_int_ok b Hb) as (cb & -> & _).
    destruct (in_byte_range w) eqn:Hw; [discriminate |].
    rewrite (bytes_of_int_out_of_range w Hw). split; reflexivity.
Qed.

Lemma stream_and_tuple_need_byte_channels_witness :
  MagicHomeControllerColorState.stream (MagicHomeControllerColorState.mk 10 300 30 40)
  = Raise ValueError /\
  exists cr cg cb cw,
    MagicHomeControllerColorState.stream (MagicHomeControllerColorState.mk 10 20 30 40)
    = Ok [cr; cg; cb; cw].
Proof.
  split.
  - apply (proj2 (stream_and_tuple_need_byte_channels
                    (MagicHomeControllerColorState.mk 10 300 30 40))).
    reflexivity.
  - destruct (proj1 (stream_and_tuple_need_byte_channels
                       (MagicHomeControllerColorState.mk 10 20 30 40)) eq_refl)
      as (cr & cg & cb & cw & Hs & _).
    exists cr, cg, cb, cw. exact Hs.
Defined.

(** A successful [state] comes from a response of ten bytes or more. *)
Lemma state_ok_inv (self : t) (world : World) (st : MagicHomeControllerState.t) :
  fst (state self world) = Ok st ->
  exists data rest status cr cg cb cw,
    tcp_inbox world = Data data :: rest /\
    (10 <= length data)%nat /\
    nth_error data 2 = Some status /\
    nth_error data 6 = Some cr /\ nth_error data 7 = Some cg /\
    nth_error data 8 = Some cb /\ nth_error data 9 = Some cw /\
    st = MagicHomeControllerState.mk
           (if int_of_byte status =? 35 then Some true else None)
           (MagicHomeControllerColorState.mk
              (int_of_byte cr) (int_of_byte cg) (int_of_byte cb) (int_of_byte cw)).
Proof.
  intros Hst.
  pose proof (state_failures_short_or_silent self world) as (Hshort & Hsilent).
  destruct (tcp_inbox world) as [| [data |] rest] eqn:Hin.
  - rewrite (Hsilent (or_introl eq_refl)) in Hst. discriminate.
  - destruct (Nat.le_gt_cases 10 (length data)) as [Hlong | Hlt].
    + destruct (state_of_long_response self world data rest Hin Hlong)
        as (status & cr & cg & cb & cw & E2 & E6 & E7 & E8 & E9 & Hst').
      rewrite Hst' in Hst. injection Hst as <-.
      exists data, rest, status, cr, cg, cb, cw. auto 10.
    + rewrite (Hshort data rest eq_refl Hlt) in Hst. discriminate.
  - rewrite (Hsilent (or_intror (ex_intro _ rest eq_refl))) in Hst. discriminate.
Qed.

Lemma four_bytes_from_six (data : bytes) (cr cg cb cw : byte) :
  nth_error data 6 = Some cr -> nth_error data 7 = Some cg ->
  nth_error data 8 = Some cb -> nth_error data 9 = Some cw ->
  firstn 4 (skipn 6 data) = [cr; cg; cb; cw].
Proof.
  intros E6 E7 E8 E9.
  do 10 (destruct data as [| ? data]; [discriminate |]).
  cbn [nth_error] in E6, E7, E8, E9.
  injection E6 as ->. injection E7 as ->. injection E8 as ->. injection E9 as ->.
  reflexivity.
Qed.

(** X6.  Whatever the device answers, a state that [state] returns never
    has the flag [False], all its channels fit a byte, and the [stream] of
    its colour is bytes 6 to 9 of the response as they came; [is_on]
    returns the flag of that state, so it never returns [False] either. *)
Theorem state_never_reports_off (self : t) (world : World) :
  fst (is_on self world) <> Ok (Some false) /\
  (forall st,
      fst (state self world) = Ok st ->
      MagicHomeControllerState.is_on st <> Some false /\
      fst (is_on self world) = Ok (MagicHomeControllerState.is_on st) /\
      channels_in_byte_range (MagicHomeControllerState.color st) = true /\
      exists data rest,
        tcp_inbox world = Data data :: rest /\
        MagicHomeControllerColorState.stream (MagicHomeControllerState.color st)
        = Ok (firstn 4 (skipn 6 data))).
Proof.
  assert (Hison : forall st, fst (state self world) = Ok st ->
                             fst (is_on self world) = Ok (MagicHomeControllerState.is_on st)).
  { intros st Hst. unfold is_on, bind.
    destruct (state self world) as [res world']. cbn [fst] in *. subst res. reflexivity. }
  assert (Hnever : forall st, fst (state self world) = Ok st ->
                              MagicHomeControllerState.is_on st <> Some false).
  { intros st Hst.
    destruct (state_ok_inv self world st Hst)
      as (data & rest & status & cr & cg & cb & cw & _ & _ & _ & _ & _ & _ & _ & ->).
    cbn. destruct (int_of_byte status =? 35); discriminate. }
  split.
  - destruct (fst (state self world)) as [st | e] eqn:Hst.
    + rewrite (Hison st eq_refl). intros H. injection H as H. exact (Hnever st eq_refl H).
    + unfold is_on, bind. destruct (state self world) as [res world'].
      cbn [fst] in *. subst res. discriminate.
  - intros st Hst. split; [exact (Hnever st Hst) |]. split; [exact (Hison st Hst) |].
    destruct (state_ok_inv self world st Hst)
      as (data & rest & status & cr & cg & cb & cw & Hin & _ & _ & E6 & E7 & E8 & E9 & ->).
    cbn [MagicHomeControllerState.color]. split.
    + unfold channels_in_byte_range.
      cbn [MagicHomeControllerColorState.r MagicHomeControllerColorState.g
             MagicHomeControllerColorState.b MagicHomeControllerColorState.w].
      rewrite !(proj2 (in_byte_range_spec _) (int_of_byte_range _)). reflexivity.
    + exists data, rest. split; [exact Hin |].
      rewrite (four_bytes_from_six data cr cg cb cw E6 E7 E8 E9).
      unfold MagicHomeControllerColorState.stream.
      cbn [MagicHomeControllerColorState.r MagicHomeControllerColorState.g
             MagicHomeControllerColorState.b MagicHomeControllerColorState.w].
      rewrite !bytes_of_int_of_byte. reflexivity.
Qed.

Lemma state_never_reports_off_witness :
  exists st,
    fst (state bulb (fresh_world [Data [x81; x25; x24; x61; x21; x10; x0a; x14; x1e; x28]]))
    = Ok st /\
    MagicHomeControllerColorState.stream (MagicHomeControllerState.color st)
    = Ok [x0a; x14; x1e; x28].
Proof.
  destruct (fst (state bulb
                   (fresh_world [Data [x81; x25; x24; x61; x21; x10; x0a; x14; x1e; x28]])))
    as [st | e] eqn:Hst; [| vm_compute in Hst; discriminate].
  exists st. split; [reflexivity |].
  destruct (proj2 (state_never_reports_off bulb
                     (fresh_world [Data [x81; x25; x24; x61; x21; x10; x0a; x14; x1e; x28]]))
              st Hst) as (_ & _ & _ & data & rest & Hin & Hstream).
  rewrite Hstream. injection Hin as <- _. reflexivity.
Defined.

(** X7.  When reading the state fails, [power_toggle] fails with the
    same exception, and the query is all it has sent: the device is
    switched neither on nor off. *)
Theorem power_toggle_fails_with_state (self : t) (world : World) (e : exn) :
  fst (state self world) = Raise e ->
  fst (power_toggle self world) = Raise e /\
  payloads (snd (power_toggle self world)) = payloads world ++ [encodeQueryState].
Proof.
  intros Hst. split.
  - unfold power_toggle, bind. destruct (state self world) as [res world'].
    cbn [fst] in *. subst res. reflexivity.
  - rewrite power_toggle_sends, Hst. reflexivity.
Qed.

Lemma power_toggle_fails_with_state_witness :
  fst (power_toggle bulb (fresh_world [Data [x81; x25; x23]])) = Raise IndexError /\
  payloads (snd (power_toggle bulb (fresh_world [Data [x81; x25; x23]])))
  = [encodeQueryState].
Proof.
  apply (power_toggle_fails_with_state bulb (fresh_world [Data [x81; x25; x23]]) IndexError).
  reflexivity.
Defined.

Lemma map_int_of_byte_inj (l l' : bytes) :
  map int_of_byte l = map int_of_byte l' -> l = l'.
Proof.
  revert l'. induction l as [| c l IH]; intros [| c' l'] H; try discriminate.
  - reflexivity.
  - cbn in H. injection H as Hc Hl. apply int_of_byte_inj in Hc. f_equal; auto.
Qed.

(** X8.  Setting a state whose flag is [True] sends the colour command of
    the state's channels, clamped, and nothing else: the turn-on command
    is not sent, so a device that is off is not switched on by it. *)
Theorem state_setter_on_pushes_colour_only
  (self : t) (c : MagicHomeControllerColorState.t) (world : World) :
  exists cmd,
    fst (state_setter self (MagicHomeControllerState.mk (Some true) c) world) = Ok tt /\
    payloads (snd (state_setter self (MagicHomeControllerState.mk (Some true) c) world))
    = payloads world ++ [cmd] /\
    map int_of_byte cmd
    = [49; clamp (MagicHomeControllerColorState.r c); clamp (MagicHomeControllerColorState.g c);
       clamp (MagicHomeControllerColorState.b c); clamp (MagicHomeControllerColorState.w c); 15;
       (49 + clamp (MagicHomeControllerColorState.r c) + clamp (MagicHomeControllerColorState.g c)
        + clamp (MagicHomeControllerColorState.b c) + clamp (MagicHomeControllerColorState.w c)
        + 15) mod 256] /\
    cmd <> encodeTurnOn.
Proof.
  destruct (state_setter_sends self (MagicHomeControllerState.mk (Some true) c) world)
    as (cmd & Hok & Hpay & Hcmd).
  cbn [MagicHomeControllerState.is_on MagicHomeControllerState.color] in Hcmd.
  destruct (color_command_frame (MagicHomeControllerColorState.r c)
              (MagicHomeControllerColorState.g c) (MagicHomeControllerColorState.b c)
              (MagicHomeControllerColorState.w c)) as (cmd' & Ecmd & Hframe).
  rewrite Hcmd in Ecmd. injection Ecmd as <-.
  exists cmd. split; [exact Hok |]. split; [exact Hpay |]. split; [exact Hframe |].
  intros ->. discriminate Hframe.
Qed.

(** X9.  Reading the state and writing it back: the device is sent the
    query and then, when byte 2 of its answer is 0x23, the colour command
    carrying its own bytes 6 to 9 unchanged; for any other byte 2 the
    flag read is indeterminate and writing it back sends the turn-off
    command. *)
Theorem state_written_back
  (self : t) (world : World) (data : bytes) (rest : list recv_result) :
  tcp_inbox world = Data data :: rest ->
  (10 <= length data)%nat ->
  exists st ck,
    fst (state self world) = Ok st /\
    fst (state_setter self st (snd (state self world))) = Ok tt /\
    payloads (snd (state_setter self st (snd (state self world))))
    = payloads world
      ++ [encodeQueryState;
          if Byte.eqb (nth 2 data x00) x23
          then x31 :: firstn 4 (skipn 6 data) ++ [x0f; ck]
          else encodeTurnOff].
Proof.
  intros Hin Hlen.
  destruct (state_of_long_response self world data rest Hin Hlen)
    as (status & cr & cg & cb & cw & E2 & E6 & E7 & E8 & E9 & Hst).
  pose proof (payloads_snoc _ _ _ _ (state_sends_query self world)) as Hq.
  set (st := MagicHomeControllerState.mk
               (if int_of_byte status =? 35 then Some true else None)
               (MagicHomeControllerColorState.mk
                  (int_of_byte cr) (int_of_byte cg) (int_of_byte cb) (int_of_byte cw))) in *.
  destruct (state_setter_sends self st (snd (state self world)))
    as (payload & Hok & Hpay & Hwhat).
  assert (Hnth : nth 2 data x00 = status).
  { apply nth_error_nth. exact E2. }
  rewrite Hnth, (four_bytes_from_six data cr cg cb cw E6 E7 E8 E9). clear Hnth.
  destruct (color_command_frame (int_of_byte cr) (int_of_byte cg) (int_of_byte cb)
              (int_of_byte cw)) as (cmd & Ecmd & Hframe).
  rewrite !clamp_id in Hframe by apply int_of_byte_range.
  destruct (bytes_of_int_ok
              ((49 + int_of_byte cr + int_of_byte cg + int_of_byte cb + int_of_byte cw + 15)
                 mod 256)) as (ck & _ & Hck).
  { pose proof (Z.mod_pos_bound
                  (49 + int_of_byte cr + int_of_byte cg + int_of_byte cb + int_of_byte cw + 15)
                  256). lia. }
  assert (Hcmd : cmd = x31 :: [cr; cg; cb; cw] ++ [x0f; ck]).
  { apply map_int_of_byte_inj. rewrite Hframe. cbn [map app]. rewrite Hck. reflexivity. }
  exists st, ck. split; [exact Hst |]. split; [exact Hok |].
  rewrite Hpay, Hq, <- app_assoc. cbn [app]. do 3 f_equal.
  subst st. cbn [MagicHomeControllerState.is_on MagicHomeControllerState.color
                   MagicHomeControllerColorState.r MagicHomeControllerColorState.g
                   MagicHomeControllerColorState.b MagicHomeControllerColorState.w] in Hwhat.
  destruct (Z.eqb_spec (int_of_byte status) 35) as [H35 | H35].
  - apply (int_of_byte_inj status x23) in H35. subst status. cbn [Byte.eqb].
    rewrite Ecmd in Hwhat. injection Hwhat as <-. rewrite Hcmd. reflexivity.
  - destruct (Byte.eqb status x23) eqn:Heq.
    + apply Byte.byte_dec_bl in Heq. subst status. exfalso. apply H35. reflexivity.
    + exact Hwhat.
Qed.

Lemma state_written_back_witness :
  exists st,
    fst (state bulb (fresh_world [Data [x81; x25; x24; x61; x21; x10; x0a; x14; x1e; x28]]))
    = Ok st /\
    payloads (snd (state_setter bulb st
                     (snd (state bulb
                             (fresh_world
                                [Data [x81; x25; x24; x61; x21; x10; x0a; x14; x1e; x28]])))))
    = [encodeQueryState; encodeTurnOff].
Proof.
  destruct (state_written_back bulb
              (fresh_world [Data [x81; x25; x24; x61; x21; x10; x0a; x14; x1e; x28]])
              [x81; x25; x24; x61; x21; x10; x0a; x14; x1e; x28] [])
    as (st & ck & Hst & _ & Hpay); [reflexivity | simpl; lia |].
  exists st. split; [exact Hst |]. exact Hpay.
Defined.

End SessionBehaviour.


(** ** More on discovery *)
Section DiscoveryBehaviour.
Import MagicHomeController MagicHome.

Lemma split_length (sep : byte) (data : bytes) :
  length (split sep data) = S (count_occ Byte.byte_eq_dec data sep).
Proof.
  induction data as [| c rest IH]; [reflexivity |].
  cbn [split count_occ].
  destruct (Byte.eqb c sep) eqn:E.
  - apply Byte.byte_dec_bl in E. subst c.
    destruct (Byte.byte_eq_dec sep sep); [| congruence]. cbn [length]. rewrite IH. reflexivity.
  - apply Byte.eqb_false in E.
    destruct (Byte.byte_eq_dec c sep); [congruence |].
    destruct (split sep rest); cbn [length] in *; [discriminate | exact IH].
Qed.

Lemma split_join (sep : byte) (data : bytes) : join sep (split sep data) = data.
Proof.
  induction data as [| c rest IH]; [reflexivity |].
  cbn [split]. pose proof (split_not_empty sep rest) as Hne.
  destruct (Byte.eqb c sep) eqn:E.
  - apply Byte.byte_dec_bl in E. subst c.
    destruct (split sep rest) as [| f fs]; [congruence |].
    cbn [join app]. cbn [join] in IH. rewrite IH. reflexivity.
  - destruct (split sep rest) as [| f fs]; [congruence |].
    destruct fs; cbn [join app] in *; rewrite IH; reflexivity.
Qed.

Lemma split_fields_without_separator (sep : byte) (data : bytes) :
  Forall (fun f => ~ In sep f) (split sep data).
Proof.
  induction data as [| c rest IH]; [repeat constructor; auto |].
  cbn [split]. destruct (Byte.eqb c sep) eqn:E.
  - constructor; [auto | exact IH].
  - apply Byte.eqb_false in E.
    destruct (split sep rest) as [| f fs]; [repeat constructor; intros [H | []]; congruence |].
    inversion IH as [| ? ? Hf Hfs]; subst. constructor; [| exact Hfs].
    intros [H | H]; [congruence | exact (Hf H)].
Qed.

(** X10.  [connect] and the commas of the response.  It raises
    [MagicHomeDeviceNotFound] for a response exactly when the bytes read
    hold three commas or more.  Otherwise the attributes of the controller
    it returns are the text between the commas: none of them contains a
    comma, and joined with commas they give back the bytes read. *)
Theorem connect_reads_fields_between_commas
  (addr d : bytes) (later : list bytes) (world : World) :
  (fst (connect addr (d :: later) world) = Raise MagicHomeDeviceNotFound <->
   (3 <= commas (received d))%nat) /\
  (forall c,
      fst (connect addr (d :: later) world) = Ok c ->
      join x2c (attributes c) = received d /\
      Forall (fun f => ~ In x2c f) (attributes c)).
Proof.
  rewrite connect_answered.
  pose proof (split_length x2c (received d)) as Hlen.
  pose proof (split_join x2c (received d)) as Hjoin.
  pose proof (split_fields_without_separator x2c (received d)) as Hsep.
  fold (commas (received d)) in Hlen. fold (fields d) in Hlen, Hjoin, Hsep.
  destruct (Nat.leb_spec (length (fields d)) 3) as [Hle | Hgt]; split.
  - split; [discriminate | lia].
  - intros c Hc. injection Hc as <-. unfold attributes. cbn [_addr _id _model].
    destruct (fields d) as [| f0 [| f1 [| f2 [| f3 fs]]]];
      cbn [length] in *; try lia; cbn [hd nth_error app]; split; assumption.
  - split; [lia | reflexivity].
  - discriminate.
Qed.

Lemma connect_reads_fields_between_commas_witness :
  fst (connect (ascii "192.168.68.240") [ascii "a,b,c,d"] (fresh_world []))
  = Raise MagicHomeDeviceNotFound.
Proof.
  apply (proj1 (connect_reads_fields_between_commas (ascii "192.168.68.240")
                  (ascii "a,b,c,d") [] (fresh_world []))).
  vm_compute. lia.
Defined.

(** One turn of the receive loop, for the identities of the objects. *)
Lemma discover_loop_step_oids (dbg : bool) (sent : list (bytes * bytes))
  (inbox : list recv_result) (usent : list (option bytes * bytes))
  (d : bytes) (later : list bytes) (found : list t) (lg : list log_record) (n : nat) :
  Forall (fun x => (oid x < n)%nat) found ->
  exists found1 lg1,
    discover_loop (d :: later) found (mkWorld dbg sent inbox usent lg n)
    = discover_loop later found1
        (mkWorld dbg sent inbox usent lg1 (n + length (filter accepted [d]))) /\
    Forall (fun x => (oid x < n + length (filter accepted [d]))%nat) found1 /\
    map oid found1 = map oid found ++ seq n (length (filter accepted [d])).
Proof.
  intros Hfresh.
  cbn [discover_loop filter]. unfold accepted, is_probe, fields, received.
  unfold bind, try_except, logger_debug, logger_warning, ret.
  pose proof (split_not_empty x2c (firstn 1024 d)) as Hne.
  destruct dbg; cbn [debug];
    (destruct (bytes_eqb (firstn 1024 d) __broadcast_message); cbn [negb andb];
     [ eexists found, _; cbn [length seq]; rewrite Nat.add_0_r, app_nil_r;
       (split; [reflexivity |]); (split; [exact Hfresh | reflexivity])
     | destruct (split x2c (firstn 1024 d)) as [| f0 [| f1 [| f2 [| f3 fs]]]];
       [congruence | | | |];
       cbn [new bind raise new_oid ret next_oid length Nat.leb Nat.ltb seq
              debug tcp_sent tcp_inbox udp_sent log];
       [ | | | eexists found, _; rewrite Nat.add_0_r, app_nil_r;
               (split; [reflexivity |]); (split; [exact Hfresh | reflexivity]) ];
       match goal with
       | |- context [set_add ?fnd ?c] =>
           rewrite (set_add_new_object fnd c) by exact Hfresh;
           eexists (fnd ++ [c]), _; rewrite Nat.add_1_r;
           (split; [reflexivity |]);
           (split;
            [ apply Forall_app; split;
              [ apply Forall_older; exact Hfresh
              | constructor; [cbn; lia | constructor] ]
            | rewrite map_app; reflexivity ])
       end ]).
Qed.

(** The receive loop, for the identities of the objects and the parts of
    the world it leaves alone. *)
Lemma discover_loop_oids (dbg : bool) (sent : list (bytes * bytes))
  (inbox : list recv_result) (usent : list (option bytes * bytes)) :
  forall (arriving : list bytes) (found : list t) (lg : list log_record) (n : nat),
    Forall (fun x => (oid x < n)%nat) found ->
    exists found' lg',
      discover_loop arriving found (mkWorld dbg sent inbox usent lg n)
      = (Ok found',
         mkWorld dbg sent inbox usent lg' (n + length (filter accepted arriving))) /\
      map oid found' = map oid found ++ seq n (length (filter accepted arriving)).
Proof.
  induction arriving as [| d later IH]; intros found lg n Hfresh.
  - exists found, lg. cbn. rewrite Nat.add_0_r, app_nil_r. auto.
  - destruct (discover_loop_step_oids dbg sent inbox usent d later found lg n Hfresh)
      as (found1 & lg1 & Hstep & Hfresh1 & Hoid1).
    destruct (IH found1 lg1 _ Hfresh1) as (found' & lg' & Hrun & Hoid).
    exists found', lg'. rewrite Hstep, Hrun, Hoid, Hoid1.
    change (d :: later) with ([d] ++ later).
    rewrite filter_app, length_app, seq_app, <- app_assoc, Nat.add_assoc. auto.
Qed.

Lemma filter_map_length {A B : Type} (f : A -> B) (p : B -> bool) (l : list A) :
  length (filter p (map f l)) = length (filter (fun x => p (f x)) l).
Proof.
  induction l as [| x l IH]; [reflexivity |].
  cbn [map filter]. destruct (p (f x)); cbn [length]; rewrite IH; reflexivity.
Qed.

(** [discover] in the model, where the socket calls cannot fail. *)
Lemma discover_counts (arriving : list bytes) (world : World) :
  exists found,
    fst (discover arriving world) = Ok found /\
    length found = length (filter accepted arriving) /\
    (forall a,
        length (filter (fun c => bytes_eqb (_addr c) a) found)
        = length (filter (fun d => bytes_eqb (hd [] (fields d)) a)
                    (filter accepted arriving))) /\
    NoDup (map oid found) /\
    next_oid (snd (discover arriving world)) = (next_oid world + length found)%nat.
Proof.
  destruct (discover_spec arriving world) as (found & Hrun & Hid & _).
  exists found. split; [exact Hrun |].
  assert (Hlen : length found = length (filter accepted arriving)).
  { rewrite <- (length_map identity found), Hid, length_map. reflexivity. }
  split; [exact Hlen |]. split.
  - intros a.
    assert (Haddr : map _addr found
                    = map (fun d => hd [] (fields d)) (filter accepted arriving)).
    { change _addr with (fun c => fst (fst (identity c))).
      rewrite <- (map_map identity (fun i => fst (fst i))), Hid, map_map. reflexivity. }
    rewrite <- (filter_map_length _addr (fun x => bytes_eqb x a)), Haddr.
    apply filter_map_length.
  - destruct world as [dbg sent inbox usent lg n].
    unfold discover, bind, udp_sendto, logger_debug in *.
    cbn [debug tcp_sent tcp_inbox udp_sent log next_oid] in *.
    destruct dbg;
      match goal with
      | |- context [discover_loop _ [] (mkWorld ?d ?s ?i ?u ?l ?m)] =>
          destruct (discover_loop_oids d s i u arriving [] l m (Forall_nil _))
            as (found' & lg' & Hrun' & Hoid)
      end;
      rewrite Hrun' in *; cbn [fst snd next_oid] in *;
      injection Hrun as ->; rewrite Hoid, Hlen; cbn [map app];
      (split; [apply seq_NoDup | reflexivity]).
Qed.

(** X11.  What [discover] yields, when it completes, is one controller
    for every accepted response, none merged: the number of controllers
    is the number of accepted responses, for every address the
    controllers with that address are as many as the accepted responses
    that begin with it, and the controllers are pairwise different
    objects. *)
Theorem discover_yields_one_controller_per_accepted_response
  (arriving : list bytes) (world : World) (found : list t) :
  fst (discover arriving world) = Ok found ->
  length found = length (filter accepted arriving) /\
  (forall a,
      length (filter (fun c => bytes_eqb (_addr c) a) found)
      = length (filter (fun d => bytes_eqb (hd [] (fields d)) a)
                  (filter accepted arriving))) /\
  NoDup (map oid found) /\
  next_oid (snd (discover arriving world)) = (next_oid world + length found)%nat.
Proof.
  intros Hok.
  destruct (discover_counts arriving world) as (found' & Hok' & Hrest).
  rewrite Hok' in Hok. injection Hok as <-. exact Hrest.
Qed.

Lemma discover_yields_one_controller_per_accepted_response_witness :
  length (filter (fun c => bytes_eqb (_addr c) (ascii "192.168.68.240"))
            [MagicHomeController.mk 0 (ascii "192.168.68.240") (Some (ascii "A")) None;
             MagicHomeController.mk 1 (ascii "192.168.68.240") (Some (ascii "A")) None])
  = 2%nat.
Proof.
  destruct (discover_yields_one_controller_per_accepted_response
              [ascii "192.168.68.240,A"; ascii "192.168.68.240,A"] (fresh_world [])
              [MagicHomeController.mk 0 (ascii "192.168.68.240") (Some (ascii "A")) None;
               MagicHomeController.mk 1 (ascii "192.168.68.240") (Some (ascii "A")) None])
    as (_ & Haddr & _); [vm_compute; reflexivity |].
  rewrite Haddr. vm_compute. reflexivity.
Defined.

(** X12.  What discovery does to the network.  [discover] sends one probe,
    as a broadcast, and [connect] one probe to the address it is given;
    neither opens a connection to a controller nor consumes an answer
    meant for one, and [connect] creates at most one object. *)
Theorem discovery_sends_one_probe (addr : bytes) (arriving : list bytes) (world : World) :
  udp_sent (snd (discover arriving world))
  = udp_sent world ++ [(None, __broadcast_message)] /\
  tcp_sent (snd (discover arriving world)) = tcp_sent world /\
  tcp_inbox (snd (discover arriving world)) = tcp_inbox world /\
  udp_sent (snd (connect addr arriving world))
  = udp_sent world ++ [(Some addr, __broadcast_message)] /\
  tcp_sent (snd (connect addr arriving world)) = tcp_sent world /\
  tcp_inbox (snd (connect addr arriving world)) = tcp_inbox world /\
  (next_oid world <= next_oid (snd (connect addr arriving world)) <= S (next_oid world))%nat.
Proof.
  destruct world as [dbg sent inbox usent lg n].
  assert (Hdiscover :
            udp_sent (snd (discover arriving (mkWorld dbg sent inbox usent lg n)))
            = usent ++ [(None, __broadcast_message)] /\
            tcp_sent (snd (discover arriving (mkWorld dbg sent inbox usent lg n))) = sent /\
            tcp_inbox (snd (discover arriving (mkWorld dbg sent inbox usent lg n))) = inbox).
  { unfold discover, bind, udp_sendto, logger_debug.
    cbn [debug tcp_sent tcp_inbox udp_sent log next_oid].
    destruct dbg;
      match goal with
      | |- context [discover_loop _ [] (mkWorld ?d ?s ?i ?u ?l ?m)] =>
          destruct (discover_loop_oids d s i u arriving [] l m (Forall_nil _))
            as (found' & lg' & Hrun' & _)
      end;
      rewrite Hrun'; cbn; auto. }
  destruct Hdiscover as (H1 & H2 & H3).
  split; [exact H1 |]. split; [exact H2 |]. split; [exact H3 |].
  cbn [udp_sent tcp_sent tcp_inbox next_oid].
  unfold connect, bind, try_except, udp_sendto, logger_debug, logger_warning, raise.
  destruct arriving as [| d later].
  - destruct dbg; cbn; repeat split; lia.
  - destruct dbg; cbn [debug];
      destruct (split x2c (firstn 1024 d)) as [| f0 [| f1 [| f2 [| f3 fs]]]];
      cbn; repeat split; lia.
Qed.

Lemma bytes_eqb_eq (x y : bytes) : bytes_eqb x y = true -> x = y.
Proof. unfold bytes_eqb. destruct (list_eq_dec Byte.byte_eq_dec x y); [auto | discriminate]. Qed.

(** X13.  [connect] against [discover] on one response.  [connect] looks
    at the first datagram only.  On a response that is not the probe the
    two agree: [connect] returns a controller exactly when [discover]
    yields one, with the same address, id and model, and raises exactly
    when [discover] yields nothing.  They differ on the probe coming back:
    [discover] ignores it, [connect] returns a controller whose address is
    the probe text. *)
Theorem connect_agrees_with_discover_except_on_probe
  (addr d : bytes) (later : list bytes) (world : World) :
  fst (connect addr (d :: later) world) = fst (connect addr [d] world) /\
  (is_probe d = false ->
   match fst (connect addr [d] world) with
   | Ok c => exists c', fst (discover [d] world) = Ok [c'] /\ identity c' = identity c
   | Raise _ => fst (discover [d] world) = Ok []
   end) /\
  (is_probe d = true ->
   fst (discover [d] world) = Ok [] /\
   exists c, fst (connect addr [d] world) = Ok c /\
             identity c = (__broadcast_message, None, None)).
Proof.
  rewrite !connect_answered. split; [reflexivity |].
  destruct (discover_spec [d] world) as (found & Hrun & Hid & _).
  rewrite Hrun. cbn [filter] in Hid. unfold accepted in Hid. split.
  - intros Hprobe. rewrite Hprobe in Hid. cbn [negb andb] in Hid.
    destruct (length (fields d) <=? 3)%nat.
    + destruct found as [| c' [| c'' found]]; try discriminate Hid.
      exists c'. split; [reflexivity |]. cbn [map] in Hid.
      apply (f_equal (hd (identity c'))) in Hid. cbn [hd] in Hid.
      rewrite Hid. reflexivity.
    + destruct found; [reflexivity | discriminate Hid].
  - intros Hprobe. rewrite Hprobe in Hid. cbn [negb andb map] in Hid.
    split; [destruct found; [reflexivity | discriminate Hid] |].
    unfold is_probe in Hprobe. apply bytes_eqb_eq in Hprobe.
    unfold fields. rewrite Hprobe.
    eexists. split; reflexivity.
Qed.

Lemma connect_agrees_with_discover_except_on_probe_witness :
  fst (discover [ascii "HF-A11ASSISTHREAD"] (fresh_world [])) = Ok [] /\
  exists c,
    fst (connect (ascii "192.168.68.240") [ascii "HF-A11ASSISTHREAD"] (fresh_world [])) = Ok c /\
    identity c = (ascii "HF-A11ASSISTHREAD", None, None).
Proof.
  apply (proj2 (proj2 (connect_agrees_with_discover_except_on_probe
                         (ascii "192.168.68.240") (ascii "HF-A11ASSISTHREAD") []
                         (fresh_world [])))).
  reflexivity.
Defined.

End DiscoveryBehaviour.


(** ** Attributes and text of a controller *)
Section ControllerText.
Import MagicHomeController.

(** X14.  The properties [addr], [id] and [model] of a controller that
    [connect] returned.  Reading [addr] never raises [AttributeError];
    reading [id] raises it exactly when the response held no comma, and
    reading [model] exactly when it held fewer than two. *)
Theorem accessors_of_connected_controller
  (utf8 : bytes -> option PyStr.str) (address d : bytes) (later : list bytes)
  (world : World) (c : t) :
  fst (MagicHome.connect address (d :: later) world) = Ok c ->
  addr utf8 c <> inl AttributeError /\
  (id utf8 c = inl AttributeError <-> commas (received d) = 0%nat) /\
  (model utf8 c = inl AttributeError <-> (commas (received d) <= 1)%nat).
Proof.
  rewrite connect_answered.
  pose proof (split_length x2c (received d)) as Hlen.
  fold (commas (received d)) in Hlen. fold (fields d) in Hlen.
  destruct (length (fields d) <=? 3)%nat; [| discriminate].
  intros H. injection H as <-.
  unfold addr, id, model, decode_attribute. cbn [_addr _id _model].
  split; [destruct (utf8 (hd [] (fields d))); discriminate |].
  destruct (fields d) as [| f0 [| f1 [| f2 fs]]]; cbn [length nth_error] in *;
    repeat match goal with
      | |- context [utf8 ?x] => destruct (utf8 x)
      end;
    (split; split; intros H; try discriminate H; try reflexivity; lia).
Qed.

Lemma accessors_of_connected_controller_witness :
  exists c,
    fst (MagicHome.connect (ascii "192.168.68.240") [ascii "192.168.68.240"] (fresh_world []))
    = Ok c /\
    id (fun _ => Some []) c = inl AttributeError.
Proof.
  eexists. split; [reflexivity |].
  apply (proj1 (proj2 (accessors_of_connected_controller (fun _ => Some [])
                         (ascii "192.168.68.240") (ascii "192.168.68.240") []
                         (fresh_world []) _ eq_refl))).
  reflexivity.
Defined.

(** Writing to a buffer whose position is behind what was written so far:
    the new text goes behind the old, over the initial value. *)
Lemma write_over_initial_value (initial written s : PyStr.str) :
  StringIO.write
    (StringIO.mk (written ++ skipn (length written) initial) (length written)) s
  = StringIO.mk ((written ++ s) ++ skipn (length (written ++ s)) initial)
      (length (written ++ s)).
Proof.
  unfold StringIO.write. cbn [StringIO.buffer StringIO.pos].
  rewrite length_app. f_equal.
  rewrite firstn_app, firstn_all, Nat.sub_diag, firstn_O, app_nil_r.
  rewrite skipn_app, skipn_all2 by lia.
  replace (length written + length s - length written)%nat with (length s) by lia.
  rewrite skipn_skipn, (Nat.add_comm (length s)). cbn [app]. apply app_assoc.
Qed.

(** X15.  [__repr__] starts from a buffer that holds the word Controller
    with the position at its start, so what it writes replaces the word
    instead of following it.  The result is the text written (the id,
    the model and the address, in their brackets), followed by what is
    left of the word beyond the length of that text: nothing when the text
    has ten characters or more.  The result never begins with the word
    Controller. *)
Theorem repr_overwrites_the_word_controller
  (format_value : bytes -> PyStr.str) (self : t) :
  let written :=
    match _id self with Some i => PyStr.text ":" ++ format_value i | None => [] end
    ++ match _model self with
       | Some m => PyStr.text "(" ++ format_value m ++ PyStr.text ")"
       | None => []
       end
    ++ PyStr.text "@[" ++ format_value (_addr self) ++ PyStr.text "]" in
  __repr__ format_value self
  = written ++ skipn (length written) (PyStr.text "Controller") /\
  ((10 <= length written)%nat -> __repr__ format_value self = written) /\
  (forall s, __repr__ format_value self <> PyStr.text "Controller" ++ s).
Proof.
  intros written.
  assert (Hrepr : __repr__ format_value self
                  = written ++ skipn (length written) (PyStr.text "Controller")).
  { unfold __repr__, StringIO.new, StringIO.getvalue. subst written.
    change (StringIO.mk (PyStr.text "Controller") 0)
      with (StringIO.mk ([] ++ skipn (length (@nil Ascii.ascii)) (PyStr.text "Controller"))
              (length (@nil Ascii.ascii))).
    destruct (_id self) as [i |]; destruct (_model self) as [m |];
      rewrite ?write_over_initial_value; cbn [StringIO.buffer app];
      rewrite <- ?app_assoc; reflexivity. }
  split; [exact Hrepr |]. split.
  - intros Hlen. rewrite Hrepr, skipn_all2 by exact Hlen. apply app_nil_r.
  - intros s. rewrite Hrepr. subst written.
    destruct (_id self) as [i |]; destruct (_model self) as [m |]; discriminate.
Qed.

Lemma repr_overwrites_the_word_controller_witness :
  __repr__ (fun _ => PyStr.text "b'192.168.68.240'") bulb
  = PyStr.text "@[b'192.168.68.240']".
Proof.
  apply (proj1 (proj2 (repr_overwrites_the_word_controller
                         (fun _ => PyStr.text "b'192.168.68.240'") bulb))).
  vm_compute. lia.
Defined.

Lemma byte_of_format_02x (x : byte) : byte_of_02x (PyStr.format_02x x) = Some x.
Proof. destruct x; vm_compute; reflexivity. Qed.

Lemma str2hex_cons (x : byte) (data : bytes) (s : PyStr.str) :
  __str2hex (Some (x :: data)) = Ok s ->
  exists tail,
    s = PyStr.text "\x" ++ PyStr.format_02x x ++ tail /\ __str2hex (Some data) = Ok tail.
Proof.
  unfold __str2hex. cbn [flat_map]. intros H. injection H as <-.
  eexists. split; [| reflexivity]. symmetry. apply app_assoc.
Qed.

(** X16.  [__str2hex] turns every byte into four characters, a backslash,
    an x and two hexadecimal digits, and the text determines the bytes:
    two byte strings with the same text are equal.  Given [None] it
    raises [TypeError]. *)
Theorem str2hex_four_characters_per_byte (data : bytes) :
  exists s,
    __str2hex (Some data) = Ok s /\
    length s = (4 * length data)%nat /\
    (forall data', __str2hex (Some data') = Ok s -> data' = data) /\
    __str2hex None = Raise TypeError.
Proof.
  eexists. split; [reflexivity |]. split; [| split; [| reflexivity]].
  - induction data as [| x data IH]; [reflexivity |].
    cbn [flat_map]. rewrite !length_app, IH. cbn [length PyStr.format_02x PyStr.text
      String.list_ascii_of_string]. lia.
  - induction data as [| x data IH]; intros [| y data'] H.
    + reflexivity.
    + discriminate H.
    + discriminate H.
    + apply str2hex_cons in H. destruct H as (tail & Hs & Htail).
      cbn [flat_map] in Hs. rewrite <- !app_assoc in Hs.
      cbn [PyStr.text String.list_ascii_of_string app PyStr.format_02x] in Hs.
      injection Hs as Hhi Hlo Hrest.
      assert (Hxy : PyStr.format_02x y = PyStr.format_02x x)
        by (unfold PyStr.format_02x; congruence).
      apply (f_equal byte_of_02x) in Hxy. rewrite !byte_of_format_02x in Hxy.
      injection Hxy as ->. f_equal. apply IH.
      rewrite Htail. subst tail. reflexivity.
Qed.

Lemma str2hex_four_characters_per_byte_witness :
  exists s,
    __str2hex (Some [x81; x0a]) = Ok s /\
    length s = 8%nat /\
    [x81; x0a] = [x81; x0a].
Proof.
  destruct (str2hex_four_characters_per_byte [x81; x0a]) as (s & Hs & Hlen & Hinj & _).
  exists s. split; [exact Hs |]. split; [exact Hlen |].
  apply (Hinj [x81; x0a]). exact Hs.
Defined.

End ControllerText.


(** ** More on brightness *)
Section BrightnessBehaviour.
Import PyFloat MagicHomeControllerColorState.

Lemma to_int_raises (x : float) (e : exn) :
  to_int x = Raise e -> e = ValueError \/ e = OverflowError.
Proof.
  unfold to_int. destruct (Prim2SF x); intros H; try discriminate H;
    injection H as <-; auto.
Qed.

(** X17.  [change_brightness] never changes the white channel, whatever
    the colour, the delta and the mode, and whether it returns or raises;
    and when it ends in [ZeroDivisionError] it has changed nothing. *)
Theorem change_brightness_keeps_white (self : t) (delta : option float) (percentage : bool) :
  w (fst (change_brightness self delta percentage)) = w self /\
  (snd (change_brightness self delta percentage) = Some ZeroDivisionError ->
   fst (change_brightness self delta percentage) = self).
Proof.
  unfold change_brightness.
  destruct delta as [delta |]; [| split; reflexivity].
  destruct (delta =? 0)%float; [split; reflexivity |].
  destruct (colorsys.rgb_to_hls (r self) (g self) (b self)) as [[[h l] s] | e];
    [| split; reflexivity].
  destruct (colorsys.hls_to_rgb h (adjust_luminance l delta percentage) s) as [[fr fg] fb].
  destruct (to_int fr) as [ir | e] eqn:Er; cbn [fst snd w].
  - destruct (to_int fg) as [ig | e] eqn:Eg; cbn [fst snd w r g b].
    + destruct (to_int fb) as [ib | e] eqn:Eb; cbn [fst snd w].
      * split; [reflexivity | discriminate].
      * split; [reflexivity |]. intros H. injection H as ->.
        destruct (to_int_raises fb _ Eb); discriminate.
    + split; [reflexivity |]. intros H. injection H as ->.
      destruct (to_int_raises fg _ Eg); discriminate.
  - split; [reflexivity |]. intros H. injection H as ->.
    destruct (to_int_raises fr _ Er); discriminate.
Qed.

Lemma change_brightness_keeps_white_witness :
  fst (change_brightness (mk 2 0 0 77) (Some 5%float) true) = mk 2 0 0 77.
Proof.
  apply (proj2 (change_brightness_keeps_white (mk 2 0 0 77) (Some 5%float) true)).
  vm_compute. reflexivity.
Defined.

Lemma SFcompare_leb_of_not_ltb (m : positive) (e : Z) (m' : positive) (e' : Z) :
  SFltb (S754_finite false m' e') (S754_finite false m e) = false ->
  SFleb (S754_finite false m e) (S754_finite false m' e') = true.
Proof.
  unfold SFltb, SFleb, SFcompare.
  rewrite (Z.compare_antisym e' e).
  destruct (e' ?= e)%Z; cbn [CompOpp]; try reflexivity; try discriminate.
  change (Pos.compare_cont Eq m m') with (Pos.compare m m').
  change (Pos.compare_cont Eq m' m) with (Pos.compare m' m).
  rewrite (Pos.compare_antisym m' m).
  destruct (m' ?= m)%positive; cbn [CompOpp]; try reflexivity; discriminate.
Qed.

(** X18.  The luminance that [change_brightness] hands to [hls_to_rgb] is
    between 0 and 255, for every luminance, every delta (infinite ones
    included) and both modes; the one exception is a luminance that is
    not a number, which the two comparisons let through. *)
Theorem adjust_luminance_between_0_and_255 (l delta : float) (percentage : bool) :
  is_nan (adjust_luminance l delta percentage) = true \/
  ((0 <=? adjust_luminance l delta percentage)%float = true /\
   (adjust_luminance l delta percentage <=? 255)%float = true).
Proof.
  unfold adjust_luminance.
  set (l' := if percentage then (l * delta)%float else (l + delta)%float).
  destruct (l' <? 0)%float eqn:Hlow; [right; split; reflexivity |].
  destruct (255 <? l')%float eqn:Hhigh; [right; split; reflexivity |].
  unfold is_nan.
  rewrite FloatAxioms.ltb_spec in Hlow, Hhigh.
  rewrite FloatAxioms.eqb_spec, !FloatAxioms.leb_spec.
  change (Prim2SF 0) with (S754_zero false) in *.
  change (Prim2SF 255) with (S754_finite false 8972014882652160 (-45)) in *.
  destruct (Prim2SF l') as [sz | si | | sf m e].
  - right. split; reflexivity.
  - destruct si; [discriminate Hlow | discriminate Hhigh].
  - left. reflexivity.
  - destruct sf; [discriminate Hlow |]. right. split; [reflexivity |].
    apply SFcompare_leb_of_not_ltb. exact Hhigh.
Qed.

Lemma zrange_In (lo z : Z) (n : nat) :
  lo <= z < lo + Z.of_nat n -> In z (zrange lo n).
Proof.
  intros Hz. unfold zrange. apply in_map_iff.
  exists (Z.to_nat (z - lo)). split; [lia |]. apply in_seq. lia.
Qed.

Lemma conversions_In (f : Z -> Z) (lo z : Z) (n : nat) :
  lo <= z < lo + Z.of_nat n -> In (z, of_int (f z)) (conversions f lo n).
Proof.
  intros Hz. unfold conversions.
  apply (in_map (fun x => (x, of_int (f x)))). apply zrange_In. exact Hz.
Qed.

Lemma hls_half_checks_true :
  forallb hls_half_check (conversions (fun z => z) 0 511) = true.
Proof. vm_compute. reflexivity. Qed.

Lemma hls_zero_checks_true : hls_zero_checks (conversions (fun z => z) 0 256) = true.
Proof. vm_compute. reflexivity. Qed.

Lemma hls_zero_checks_spec (table : list (Z * result float)) :
  hls_zero_checks table = true ->
  forall p q, In p table -> In q table -> hls_zero_check p q = true.
Proof.
  unfold hls_zero_checks. intros Hall p q Hp Hq.
  rewrite forallb_forall in Hall. specialize (Hall p Hp).
  rewrite forallb_forall in Hall. exact (Hall q Hq).
Qed.

(** The integers up to 510 convert, and half of the float is at most 0.5
    exactly when the integer is at most 1. *)
Lemma of_int_small (z : Z) :
  0 <= z <= 510 ->
  exists f, of_int z = Ok f /\ (f / 2 <=? 0.5)%float = (z <=? 1).
Proof.
  intros Hz.
  pose proof (proj1 (forallb_forall _ _) hls_half_checks_true
                (z, of_int z) (conversions_In (fun x => x) 0 z 511 ltac:(lia))) as Hchk.
  unfold hls_half_check in Hchk. cbn [fst snd] in Hchk.
  destruct (of_int z) as [f |]; [| discriminate].
  exists f. split; [reflexivity |]. apply Bool.eqb_prop. exact Hchk.
Qed.

Lemma of_int_byte (z : Z) : 0 <= z <= 255 -> exists f, of_int z = Ok f.
Proof.
  intros Hz. destruct (of_int_small z ltac:(lia)) as (f & Hf & _). exists f. exact Hf.
Qed.

(** The divisor of the saturation is zero exactly when the largest and
    the smallest channel add up to 2. *)
Lemma saturation_divisor_zero (maxc minc : Z) (fmaxc fminc : float) :
  0 <= maxc <= 255 -> 0 <= minc <= 255 ->
  of_int maxc = Ok fmaxc -> of_int minc = Ok fminc ->
  (2 - fmaxc - fminc =? 0)%float = (maxc + minc =? 2).
Proof.
  intros Hmax Hmin Emax Emin.
  pose proof (hls_zero_checks_spec _ hls_zero_checks_true
                (maxc, of_int maxc) (minc, of_int minc)
                (conversions_In (fun x => x) 0 maxc 256 ltac:(lia))
                (conversions_In (fun x => x) 0 minc 256 ltac:(lia))) as Hchk.
  unfold hls_zero_check in Hchk. cbn [fst snd] in Hchk. rewrite Emax, Emin in Hchk.
  apply Bool.eqb_prop. exact Hchk.
Qed.

Lemma int_truediv_bytes (a b : Z) :
  0 <= a <= 255 -> 0 < b <= 255 -> exists q, int_truediv a b = Ok q.
Proof.
  intros Ha Hb. unfold int_truediv.
  destruct (Z.eqb_spec b 0); [lia |].
  destruct (of_int_byte a Ha) as (fa & ->).
  destruct (of_int_byte b ltac:(lia)) as (fb & ->).
  cbn [rbind]. eexists. reflexivity.
Qed.

(** [rgb_to_hls] on channels that fit a byte: a division by zero when the
    largest and the smallest channel differ and add up to 2, a result in
    every other case. *)
Lemma rgb_to_hls_on_bytes (r g b : Z) :
  0 <= r <= 255 -> 0 <= g <= 255 -> 0 <= b <= 255 ->
  exists hls,
    colorsys.rgb_to_hls r g b
    = if negb (Z.min (Z.min r g) b =? Z.max (Z.max r g) b)
         && (Z.max (Z.max r g) b + Z.min (Z.min r g) b =? 2)
      then Raise ZeroDivisionError
      else Ok hls.
Proof.
  intros Hr Hg Hb. unfold colorsys.rgb_to_hls.
  set (maxc := Z.max (Z.max r g) b). set (minc := Z.min (Z.min r g) b).
  assert (Hmax : 0 <= maxc <= 255) by (unfold maxc; lia).
  assert (Hmin : 0 <= minc <= 255) by (unfold minc; lia).
  assert (Hle : minc <= maxc) by (unfold minc, maxc; lia).
  destruct (of_int_byte maxc Hmax) as (fmaxc & Emax).
  destruct (of_int_byte minc Hmin) as (fminc & Emin).
  destruct (of_int_small (maxc + minc) ltac:(lia)) as (fsumc & Esum & Hhalf).
  destruct (of_int_byte (maxc - minc) ltac:(lia)) as (frangec & Erange).
  pose proof (saturation_divisor_zero maxc minc fmaxc fminc Hmax Hmin Emax Emin) as Hzero.
  rewrite Esum.
  cbn [rbind]. change (truediv fsumc 2) with (Ok (fsumc / 2)%float : result float).
  cbn [rbind].
  destruct (Z.eqb_spec minc maxc) as [Heq | Hneq]; cbn [negb andb];
    [eexists; reflexivity |].
  destruct (int_truediv_bytes (maxc - r) (maxc - minc)) as (rc & ->);
    [unfold maxc; lia | lia |].
  destruct (int_truediv_bytes (maxc - g) (maxc - minc)) as (gc & ->);
    [unfold maxc; lia | lia |].
  destruct (int_truediv_bytes (maxc - b) (maxc - minc)) as (bc & ->);
    [unfold maxc; lia | lia |].
  rewrite Hhalf.
  destruct (Z.leb_spec (maxc + minc) 1) as [Hsmall | Hlarge].
  - destruct (Z.eqb_spec (maxc + minc) 2); [lia |].
    unfold int_truediv at 1.
    destruct (Z.eqb_spec (maxc + minc) 0); [lia |].
    rewrite Erange, Esum.
    cbn [rbind]. unfold truediv. change (6 =? 0)%float with false.
    eexists. reflexivity.
  - rewrite Emax, Emin, Erange. cbn [rbind]. unfold truediv at 1. rewrite Hzero.
    destruct (maxc + minc =? 2); [exists (0%float, 0%float, 0%float); reflexivity |].
    cbn [rbind]. unfold truediv. change (6 =? 0)%float with false.
    eexists. reflexivity.
Qed.

(** [ZeroDivisionError] can only come out of the conversion. *)
Lemma change_brightness_zero_division
  (self : t) (delta : float) (percentage : bool) :
  (delta =? 0)%float = false ->
  (snd (change_brightness self (Some delta) percentage) = Some ZeroDivisionError <->
   colorsys.rgb_to_hls (r self) (g self) (b self) = Raise ZeroDivisionError).
Proof.
  intros Hdelta. unfold change_brightness. rewrite Hdelta.
  destruct (colorsys.rgb_to_hls (r self) (g self) (b self)) as [[[h l] s] | e].
  - destruct (colorsys.hls_to_rgb h (adjust_luminance l delta percentage) s) as [[fr fg] fb].
    split; [| discriminate].
    destruct (to_int fr) as [ir | e] eqn:Er; cbn [snd];
      [| intros H; injection H as ->; destruct (to_int_raises fr _ Er); discriminate].
    destruct (to_int fg) as [ig | e] eqn:Eg; cbn [snd];
      [| intros H; injection H as ->; destruct (to_int_raises fg _ Eg); discriminate].
    destruct (to_int fb) as [ib | e] eqn:Eb; cbn [snd];
      [discriminate |].
    intros H; injection H as ->; destruct (to_int_raises fb _ Eb); discriminate.
  - cbn [snd]. split; intros H; injection H as ->; reflexivity.
Qed.

(** X19.  Which colours make the brightness adjustment fail.  For
    channels in [0,255], [rgb_to_hls] raises exactly when the largest
    channel is 2 and the smallest is 0, and then it is
    [ZeroDivisionError]; [change_brightness] with a delta other than zero
    ends in [ZeroDivisionError] on exactly those colours, in both modes. *)
Theorem change_brightness_divides_by_zero_iff (red green blue : Z) :
  0 <= red <= 255 -> 0 <= green <= 255 -> 0 <= blue <= 255 ->
  (colorsys.rgb_to_hls red green blue = Raise ZeroDivisionError <->
   Z.max (Z.max red green) blue = 2 /\ Z.min (Z.min red green) blue = 0) /\
  (forall e, colorsys.rgb_to_hls red green blue = Raise e -> e = ZeroDivisionError) /\
  (forall white delta percentage,
      (delta =? 0)%float = false ->
      (snd (change_brightness (mk red green blue white) (Some delta) percentage)
       = Some ZeroDivisionError <->
       Z.max (Z.max red green) blue = 2 /\ Z.min (Z.min red green) blue = 0)).
Proof.
  intros Hr Hg Hb.
  destruct (rgb_to_hls_on_bytes red green blue Hr Hg Hb) as (hls & Hhls).
  assert (Hiff : colorsys.rgb_to_hls red green blue = Raise ZeroDivisionError <->
                 Z.max (Z.max red green) blue = 2 /\ Z.min (Z.min red green) blue = 0).
  { rewrite Hhls.
    destruct (Z.eqb_spec (Z.min (Z.min red green) blue) (Z.max (Z.max red green) blue));
      destruct (Z.eqb_spec (Z.max (Z.max red green) blue + Z.min (Z.min red green) blue) 2);
      cbn [negb andb]; split; intros H; try discriminate H; try reflexivity; lia. }
  split; [exact Hiff |]. split.
  - intros e. rewrite Hhls.
    destruct (negb _ && _); intros H; [injection H as <-; reflexivity | discriminate H].
  - intros white delta percentage Hdelta.
    rewrite (change_brightness_zero_division _ delta percentage Hdelta). exact Hiff.
Qed.

Lemma change_brightness_divides_by_zero_iff_witness :
  snd (change_brightness (mk 0 2 1 0) (Some 10%float) false) = Some ZeroDivisionError.
Proof.
  apply (proj2 (proj2 (change_brightness_divides_by_zero_iff 0 2 1
                         ltac:(lia) ltac:(lia) ltac:(lia)))).
  - reflexivity.
  - split; reflexivity.
Defined.

Lemma grey_checks_true :
  grey_checks (conversions (fun v => v + v) 0 256) (conversions (fun d => d) (-300) 601)
  = true.
Proof. vm_compute. reflexivity. Qed.

Lemma grey_checks_spec (levels deltas : list (Z * result float)) :
  grey_checks levels deltas = true ->
  forall level delta,
    In level levels -> In delta deltas -> grey_entry_check level delta = true.
Proof.
  unfold grey_checks. intros Hall level delta Hlevel Hdelta.
  rewrite forallb_forall in Hall. specialize (Hall level Hlevel).
  rewrite forallb_forall in Hall. exact (Hall delta Hdelta).
Qed.

(** What [change_brightness] does on a grey, in the additive mode. *)
Lemma change_brightness_on_grey (v white : Z) (fsumc fd : float) :
  of_int (v + v) = Ok fsumc ->
  change_brightness (mk v v v white) (Some fd) false
  = if (fd =? 0)%float then (mk v v v white, None)
    else
      match to_int (adjust_luminance (fsumc / 2) fd false) with
      | Ok i => (mk i i i white, None)
      | Raise e => (mk v v v white, Some e)
      end.
Proof.
  intros Esum. unfold change_brightness. cbn [r g b w].
  destruct (fd =? 0)%float; [reflexivity |].
  unfold colorsys.rgb_to_hls. rewrite !Z.max_id, !Z.min_id, Esum, Z.eqb_refl.
  cbn [rbind]. change (truediv fsumc 2) with (Ok (fsumc / 2)%float : result float).
  cbn [rbind]. unfold colorsys.hls_to_rgb. change (0 =? 0)%float with true.
  cbv beta iota zeta.
  destruct (to_int (adjust_luminance (fsumc / 2) fd false)); reflexivity.
Qed.

(** X20.  On a grey (red, green and blue equal, in [0,255]) the additive
    adjustment is exact: for every whole delta from -300 to 300 the three
    channels become the level plus the delta, clamped to [0,255], the
    white channel stays, and nothing is raised. *)
Theorem change_brightness_exact_on_greys (v d white : Z) :
  0 <= v <= 255 -> -300 <= d <= 300 ->
  exists fd,
    of_int d = Ok fd /\
    change_brightness (mk v v v white) (Some fd) false
    = (mk (clamp (v + d)) (clamp (v + d)) (clamp (v + d)) white, None).
Proof.
  intros Hv Hd.
  pose proof (grey_checks_spec _ _ grey_checks_true
                (v, of_int (v + v)) (d, of_int d)
                (conversions_In (fun x => x + x) 0 v 256 ltac:(lia))
                (conversions_In (fun x => x) (-300) d 601 ltac:(lia))) as Hall.
  unfold grey_entry_check in Hall. cbn [fst snd] in Hall.
  destruct (of_int (v + v)) as [fsumc |] eqn:Esum; [| discriminate].
  destruct (of_int d) as [fd |]; [| discriminate].
  exists fd. split; [reflexivity |].
  rewrite (change_brightness_on_grey v white fsumc fd Esum).
  unfold grey_check in Hall.
  destruct (fd =? 0)%float.
  - apply Z.eqb_eq in Hall. rewrite <- Hall. reflexivity.
  - destruct (to_int (adjust_luminance (fsumc / 2) fd false)) as [i |]; [| discriminate].
    apply Z.eqb_eq in Hall. rewrite Hall. reflexivity.
Qed.

Lemma change_brightness_exact_on_greys_witness :
  exists fd,
    of_int 100 = Ok fd /\
    change_brightness (mk 200 200 200 7) (Some fd) false = (mk 255 255 255 7, None).
Proof.
  apply (change_brightness_exact_on_greys 200 100 7); lia.
Defined.

End BrightnessBehaviour.
